(** * QKart backend: cart mutation and checkout settlement

    A shallow embedding of the cart service of the QKart backend and the
    properties its specification states about it.

    The repository carries the cart service twice:
    - [services/cart.service.js], embedded in [Module Services];
    - a second copy ([unnamed/part_001]), embedded in [Module Part001].
    The two copies differ in how they scan the cart and in how they remove
    an item; every property below says which copy it speaks about, or is
    stated for both through [Impl].

    Modelling choices.
    - Amounts.  The cart manager never computes with an amount, and the
      order of the checks and of the writes of the checkout does not
      depend on how amounts are rounded: for these the amounts are
      integers, [Z].  What the checkout stores as the new balance does
      depend on it: JavaScript numbers are IEEE 754 binary64, and the
      settlement is embedded a second time, in [Module Binary64], over
      the [spec_float]s of the standard library; the properties of the
      balance are stated there.
    - A Mongoose collection is a list of documents in insertion order; the
      position of a document in the list stands for its [_id].  Documents
      of the collections are never deleted by the service.
    - Product identifiers are strings, compared with [==], and looked up
      as they are written; see [canonicalId] for the identifiers on which
      this is what Mongoose does.
    - An [async] function is a computation over the world (the store and
      the outcomes of the writes to come) that resolves or rejects; a
      rejection keeps every write done before it.  Reads of the store
      always answer; a write is accepted or rejected by the storage.  A
      save of a document that was not modified sends no write.
    - Fields of the documents that the cart service never reads (the
      user's name and password, timestamps) are left out. *)

From Stdlib Require Import ZArith String SpecFloat.
From stdpp Require Import base strings numbers list.

Local Open Scope string_scope.
Local Open Scope Z_scope.

(** ** Documents (models) *)

Module Product.
Record t := mk { _id : string; cost : Z }.
End Product.

Module CartItem.
Record t := mk { product : Product.t; quantity : Z }.
Definition set_quantity (q : Z) (item : t) : t :=
  {| product := product item; quantity := q |}.
End CartItem.

Module Cart.
Record t := mk { email : string; cartItems : list CartItem.t; paymentOption : string }.
Definition set_cartItems (items : list CartItem.t) (cart : t) : t :=
  {| email := email cart; cartItems := items; paymentOption := paymentOption cart |}.
End Cart.

Module User.
Record t := mk { email : string; walletMoney : Z; address : string }.
Definition set_walletMoney (m : Z) (user : t) : t :=
  {| email := email user; walletMoney := m; address := address user |}.
End User.

(** Documents can be compared: Mongoose sends a write for a document only
    when it differs from what was loaded. *)
#[global] Instance Product_eq_dec : EqDecision Product.t.
Proof. solve_decision. Defined.

#[global] Instance CartItem_eq_dec : EqDecision CartItem.t.
Proof. solve_decision. Defined.

#[global] Instance Cart_eq_dec : EqDecision Cart.t.
Proof. solve_decision. Defined.

(** The values of [config/config.js] that the service reads, and the
    default of [paymentOption] in the cart schema, which [Cart.create]
    fills in when the caller leaves the field out.  Neither file is part
    of the sources at hand, so both are parameters. *)
Record Config := {
  default_address : string;
  default_payment_option : string;
  cartSchema_paymentOption : string
}.

(** A document held in memory: its identity in the collection and its
    fields. *)
Definition Doc (A : Type) : Type := nat * A.

(** ** The store and asynchronous computations *)

Record Store := {
  users : list User.t;
  carts : list Cart.t;
  products : list Product.t
}.

(** [writes] lists the outcomes of the writes to come ([false]: the
    storage rejects the write); once the list is used up writes succeed. *)
Record World := { db : Store; writes : list bool }.

Inductive httpStatus := BAD_REQUEST | NOT_FOUND | INTERNAL_SERVER_ERROR.

Definition statusCode (s : httpStatus) : Z :=
  match s with
  | BAD_REQUEST => 400
  | NOT_FOUND => 404
  | INTERNAL_SERVER_ERROR => 500
  end.

(** What an operation throws: an [ApiError] built by the service, or the
    error of the persistence layer, which the service lets through. *)
Inductive Error :=
| ApiError (status : httpStatus) (message : string)
| MongoError.

Inductive Result (A : Type) :=
| Resolved (a : A)
| Rejected (e : Error).
Arguments Resolved {A} a.
Arguments Rejected {A} e.

Definition Promise (A : Type) : Type := World -> Result A * World.

Definition resolve {A} (a : A) : Promise A := fun w => (Resolved a, w).

Definition throw {A} (e : Error) : Promise A := fun w => (Rejected e, w).

Definition await {A B} (m : Promise A) (k : A -> Promise B) : Promise B :=
  fun w =>
    match m w with
    | (Resolved a, w') => k a w'
    | (Rejected e, w') => (Rejected e, w')
    end.

Definition try_catch {A} (m : Promise A) (handler : Error -> Promise A) : Promise A :=
  fun w =>
    match m w with
    | (Resolved a, w') => (Resolved a, w')
    | (Rejected e, w') => handler e w'
    end.

Notation "'let!' x ':=' m 'in' k" := (await m (fun x => k))
  (at level 10, x name, m at level 100, k at level 200).
Notation "m ';;;' k" := (await m (fun _ => k))
  (at level 100, k at level 200, right associativity).

(** A write: the next outcome is consumed; when the storage accepts the
    write and the document it targets exists, the store is updated. *)
Definition write {A} (update : Store -> option (A * Store)) : Promise A :=
  fun w =>
    let accepted := match writes w with [] => true | b :: _ => b end in
    let w' := {| db := db w; writes := tail (writes w) |} in
    if accepted then
      match update (db w) with
      | Some (a, s') => (Resolved a, {| db := s'; writes := tail (writes w) |})
      | None => (Rejected MongoError, w')
      end
    else (Rejected MongoError, w').

(** The first cart of that email, in insertion order, and the first
    product of that identifier. *)
Definition findCartForUser (email : string) (s : Store) : option (Doc Cart.t) :=
  list_find (fun c => Cart.email c = email) (carts s).

Definition findById (productId : string) (s : Store) : option Product.t :=
  snd <$> list_find (fun p => Product._id p = productId) (products s).

(** [Cart.findOne({email})]. *)
Definition Cart_findOne (email : string) : Promise (option (Doc Cart.t)) :=
  fun w => (Resolved (findCartForUser email (db w)), w).

(** [Cart.create(fields)]: a new document at the end of the collection. *)
Definition Cart_create (fields : Cart.t) : Promise (Doc Cart.t) :=
  write (fun s =>
    Some ((length (carts s), fields),
          {| users := users s; carts := carts s ++ [fields]; products := products s |})).

(** [cart.save()]: the document of that identity takes the fields held in
    memory.  A cart held in memory was read or created by the same call;
    when nothing was modified since, Mongoose sends no write and the call
    resolves. *)
Definition Cart_save (cart : Doc Cart.t) : Promise unit :=
  fun w =>
    if decide (carts (db w) !! cart.1 = Some cart.2) then (Resolved tt, w)
    else
      write (fun s =>
        Some (tt, {| users := users s; carts := <[cart.1 := cart.2]> (carts s);
                     products := products s |})) w.

(** [user.save()]: the one path the service modifies, [walletMoney], is
    written to the stored document; saving a document that is not in the
    collection is rejected.  The [pre("save")] hook of [user.model.js]
    rehashes the password on every save, so a write is always sent; the
    password itself is a field left out of [User.t]. *)
Definition User_save (user : Doc User.t) : Promise unit :=
  write (fun s =>
    match users s !! user.1 with
    | Some _ =>
        Some (tt, {| users := alter (User.set_walletMoney (User.walletMoney user.2))
                                    user.1 (users s);
                     carts := carts s; products := products s |})
    | None => None
    end).

(** [Product.findById(id)] and [Product.findOne({_id: id})]. *)
Definition Product_findById (productId : string) : Promise (option Product.t) :=
  fun w => (Resolved (findById productId (db w)), w).

(** [$pull]: the array at [path] loses the elements that match.  A cart has
    one array, at ["cartItems"]; at any other path there is nothing to pull
    from and the document stays as it is. *)
Definition pull (path : string) (matches : CartItem.t -> bool) (cart : Cart.t) : Cart.t :=
  if String.eqb path "cartItems"
  then Cart.set_cartItems (filter (fun item => matches item = false) (Cart.cartItems cart)) cart
  else cart.

(** An element of [cartItems] is a sub-document; compared with a string,
    as [$pull] does when it is given a plain value, it is never equal. *)
Definition equalsValue (value : string) (item : CartItem.t) : bool := false.

(** [Cart.updateOne({email}, {$pull: {path: value}})]: the first cart of
    that email is updated; with no such cart nothing is.  A path that the
    schema of the cart does not have is dropped from the update, and an
    update left empty is not sent: the call resolves without a write. *)
Definition Cart_updateOne_pull (email path value : string) : Promise unit :=
  if String.eqb path "cartItems" then
    write (fun s =>
      match findCartForUser email s with
      | Some (i, c) =>
          Some (tt, {| users := users s;
                       carts := <[i := pull path (equalsValue value) c]> (carts s);
                       products := products s |})
      | None => Some (tt, s)
      end)
  else resolve tt.

(** [userSchema.methods.hasSetNonDefaultAddress] of [user.model.js]. *)
Definition hasSetNonDefaultAddress (cfg : Config) (user : User.t) : Promise bool :=
  resolve (negb (String.eqb (User.address user) (default_address cfg))).

(** The identity of the product of a cart item, [item.product._id]. *)
Definition productIdOf (item : CartItem.t) : string :=
  Product._id (CartItem.product item).

(** ** [services/cart.service.js] *)

Module Services.

(** The scan the three mutations share:
    [for (i = 0; i < cartItems.length; i++)
       if (productId == cartItems[i].product._id) productIndex = i;]
    started with [productIndex = -1].  The loop has no [break]. *)
Fixpoint scanFrom (productId : string) (items : list CartItem.t) (i productIndex : Z) : Z :=
  match items with
  | [] => productIndex
  | item :: rest =>
      scanFrom productId rest (i + 1)
        (if String.eqb productId (productIdOf item) then i else productIndex)
  end.

Definition productIndexOf (productId : string) (items : list CartItem.t) : Z :=
  scanFrom productId items 0 (-1).

Definition getCartByUser (user : Doc User.t) : Promise (Doc Cart.t) :=
  let! result := Cart_findOne (User.email user.2) in
  match result with
  | None => throw (ApiError NOT_FOUND "User Cart does not exist")
  | Some cart => resolve cart
  end.

(** The test [cart == null] after the creation cannot hold: [Cart.create]
    resolves to a document or rejects. *)
Definition addProductToCart (cfg : Config) (user : Doc User.t)
    (productId : string) (quantity : Z) : Promise (Doc Cart.t) :=
  let! found := Cart_findOne (User.email user.2) in
  let! cart :=
    match found with
    | Some cart => resolve cart
    | None =>
        try_catch
          (Cart_create {| Cart.email := User.email user.2;
                          Cart.cartItems := [];
                          Cart.paymentOption := default_payment_option cfg |})
          (fun _ => throw (ApiError INTERNAL_SERVER_ERROR "500 Internal Server Error"))
    end in
  let productIndex := productIndexOf productId (Cart.cartItems cart.2) in
  let! cart :=
    if (productIndex =? -1)%Z then
      let! product := Product_findById productId in
      match product with
      | None => throw (ApiError BAD_REQUEST "Product doesn't exist in database")
      | Some product =>
          resolve (cart.1,
                   Cart.set_cartItems
                     (Cart.cartItems cart.2 ++
                      [{| CartItem.product := product; CartItem.quantity := quantity |}])
                     cart.2)
      end
    else
      throw (ApiError BAD_REQUEST
        "Product already in cart. Use the cart sidebar to update or remove product from cart") in
  Cart_save cart ;;;
  resolve cart.

Definition updateProductInCart (user : Doc User.t)
    (productId : string) (quantity : Z) : Promise (Doc Cart.t) :=
  let! found := Cart_findOne (User.email user.2) in
  match found with
  | None => throw (ApiError BAD_REQUEST "User does not have a cart")
  | Some cart =>
      let! product := Product_findById productId in
      match product with
      | None => throw (ApiError BAD_REQUEST "Product does not exist")
      | Some _ =>
          let productIndex := productIndexOf productId (Cart.cartItems cart.2) in
          let! cart :=
            if (productIndex =? -1)%Z then
              throw (ApiError BAD_REQUEST "Product not in cart")
            else
              resolve (cart.1,
                       Cart.set_cartItems
                         (alter (CartItem.set_quantity quantity) (Z.to_nat productIndex)
                                (Cart.cartItems cart.2))
                         cart.2) in
          Cart_save cart ;;;
          resolve cart
      end
  end.

(** [cartItems.splice(productIndex, 1)] removes the element at that index. *)
Definition deleteProductFromCart (user : Doc User.t) (productId : string) : Promise unit :=
  let! found := Cart_findOne (User.email user.2) in
  match found with
  | None => throw (ApiError BAD_REQUEST "User does not have a cart")
  | Some cart =>
      let productIndex := productIndexOf productId (Cart.cartItems cart.2) in
      let! cart :=
        if (productIndex =? -1)%Z then
          throw (ApiError BAD_REQUEST "Product not in cart")
        else
          resolve (cart.1,
                   Cart.set_cartItems
                     (delete (Z.to_nat productIndex) (Cart.cartItems cart.2))
                     cart.2) in
      Cart_save cart
  end.

(** [sub = cartItems.map(item => item.product.cost * item.quantity)] and
    the loop [total += sub[i]]. *)
Definition subtotals (items : list CartItem.t) : list Z :=
  map (fun item => Product.cost (CartItem.product item) * CartItem.quantity item) items.

Definition totalOf (sub : list Z) : Z :=
  fold_left (fun total x => total + x) sub 0.

(** The test [cart == null] after [getCartByUser] cannot hold: the call
    throws when there is no cart.  The user is saved before the cart is
    emptied in memory. *)
Definition checkout (cfg : Config) (user : Doc User.t) : Promise unit :=
  let! cart := getCartByUser user in
  if (length (Cart.cartItems cart.2) =? 0)%nat then
    throw (ApiError BAD_REQUEST "No items in the cart")
  else if String.eqb (User.address user.2) (default_address cfg) then
    throw (ApiError BAD_REQUEST " Address unavailable")
  else
    let! defaultAddressFlag := hasSetNonDefaultAddress cfg user.2 in
    let sub := subtotals (Cart.cartItems cart.2) in
    let total := totalOf sub in
    let balance := User.walletMoney user.2 - total in
    if (balance <? 0)%Z then
      throw (ApiError BAD_REQUEST "Balance insufficient")
    else
      let user := (user.1, User.set_walletMoney balance user.2) in
      User_save user ;;;
      let cart := (cart.1, Cart.set_cartItems [] cart.2) in
      Cart_save cart.

End Services.

(** ** The second copy of the cart service ([unnamed/part_001]) *)

Module Part001.

Definition getCartByUser (user : Doc User.t) : Promise (Doc Cart.t) :=
  let! cart := Cart_findOne (User.email user.2) in
  match cart with
  | None => throw (ApiError NOT_FOUND "User does not have a cart")
  | Some cart => resolve cart
  end.

(** [cartItems.filter(cartItem => cartItem.product._id == productId)]. *)
Definition itemsOfProduct (productId : string) (items : list CartItem.t) : list CartItem.t :=
  List.filter (fun cartItem => String.eqb (productIdOf cartItem) productId) items.

(** [Cart.create({email})] leaves [cartItems] and [paymentOption] to the
    defaults of the schema.  The test [!cart] after the creation cannot
    hold. *)
Definition addProductToCart (cfg : Config) (user : Doc User.t)
    (productId : string) (quantity : Z) : Promise (Doc Cart.t) :=
  let! found := Cart_findOne (User.email user.2) in
  let! cart :=
    try_catch
      (match found with
       | Some cart => resolve cart
       | None =>
           Cart_create {| Cart.email := User.email user.2;
                          Cart.cartItems := [];
                          Cart.paymentOption := cartSchema_paymentOption cfg |}
       end)
      (fun _ => throw (ApiError INTERNAL_SERVER_ERROR "Internal Server Error")) in
  let product := itemsOfProduct productId (Cart.cartItems cart.2) in
  if (0 <? length product)%nat then
    throw (ApiError BAD_REQUEST
      "Product already in cart. Use the cart sidebar to update or remove product from cart")
  else
    let! product := Product_findById productId in
    match product with
    | None => throw (ApiError BAD_REQUEST "Product doesn't exist in database")
    | Some product =>
        let cart :=
          (cart.1,
           Cart.set_cartItems
             (Cart.cartItems cart.2 ++
              [{| CartItem.product := product; CartItem.quantity := quantity |}])
             cart.2) in
        Cart_save cart ;;;
        resolve cart
    end.

(** The loop of [updateProductInCart] returns at the first item of the
    product: [Some i] is the iteration at which it does, [None] the loop
    running to its end. *)
Fixpoint firstIndexFrom (productId : string) (items : list CartItem.t) (i : nat) : option nat :=
  match items with
  | [] => None
  | item :: rest =>
      if String.eqb (productIdOf item) productId then Some i
      else firstIndexFrom productId rest (S i)
  end.

Definition updateProductInCart (user : Doc User.t)
    (productId : string) (quantity : Z) : Promise (Doc Cart.t) :=
  let! found := Cart_findOne (User.email user.2) in
  match found with
  | None =>
      throw (ApiError BAD_REQUEST
        "User does not have a cart. Use POST to create cart and add a product")
  | Some cart =>
      let! product := Product_findById productId in
      match product with
      | None => throw (ApiError BAD_REQUEST "Product doesn't exist in database")
      | Some _ =>
          match firstIndexFrom productId (Cart.cartItems cart.2) 0 with
          | Some i =>
              let cart :=
                (cart.1,
                 Cart.set_cartItems
                   (alter (CartItem.set_quantity quantity) i (Cart.cartItems cart.2))
                   cart.2) in
              Cart_save cart ;;;
              resolve cart
          | None => throw (ApiError BAD_REQUEST "Product not in cart")
          end
      end
  end.

(** The removal is an update of the collection whose [$pull] names the
    path ["cartItem.product._id"]. *)
Definition deleteProductFromCart (user : Doc User.t) (productId : string) : Promise unit :=
  let! found := Cart_findOne (User.email user.2) in
  match found with
  | None =>
      throw (ApiError BAD_REQUEST
        "User does not have a cart. Use POST to create cart and add a product")
  | Some cart =>
      let productInCart := itemsOfProduct productId (Cart.cartItems cart.2) in
      if (length productInCart =? 0)%nat then
        throw (ApiError BAD_REQUEST "Product not in cart")
      else
        Cart_updateOne_pull (User.email user.2) "cartItem.product._id" productId
  end.

(** [cartItems.reduce((sum, item) => sum + item.quantity*item.product.cost, 0)]. *)
Definition totalCostOf (items : list CartItem.t) : Z :=
  fold_left
    (fun sum item => sum + CartItem.quantity item * Product.cost (CartItem.product item))
    items 0.

(** The wallet is debited and the cart emptied in memory, then the user is
    saved, then the cart. *)
Definition checkout (cfg : Config) (user : Doc User.t) : Promise unit :=
  let! found := Cart_findOne (User.email user.2) in
  match found with
  | None => throw (ApiError NOT_FOUND "User does not have a cart")
  | Some cart =>
      if (length (Cart.cartItems cart.2) =? 0)%nat then
        throw (ApiError BAD_REQUEST "Cart doesn't have any product")
      else
        let! isAddressPresent := hasSetNonDefaultAddress cfg user.2 in
        if negb isAddressPresent then
          throw (ApiError BAD_REQUEST "Address Not Set")
        else
          let totalCost := totalCostOf (Cart.cartItems cart.2) in
          if (totalCost >? User.walletMoney user.2)%Z then
            throw (ApiError BAD_REQUEST "User wallet balance is insufficien")
          else
            let user :=
              (user.1, User.set_walletMoney (User.walletMoney user.2 - totalCost) user.2) in
            let cart := (cart.1, Cart.set_cartItems [] cart.2) in
            User_save user ;;;
            Cart_save cart
  end.

End Part001.

(** ** The operations of the cart manager, for either copy *)

Inductive Impl := services_cart_service | unnamed_part_001.

Definition addItem (impl : Impl) (cfg : Config) (user : Doc User.t)
    (productId : string) (quantity : Z) : Promise (Doc Cart.t) :=
  match impl with
  | services_cart_service => Services.addProductToCart cfg user productId quantity
  | unnamed_part_001 => Part001.addProductToCart cfg user productId quantity
  end.

Definition updateItem (impl : Impl) (user : Doc User.t)
    (productId : string) (quantity : Z) : Promise (Doc Cart.t) :=
  match impl with
  | services_cart_service => Services.updateProductInCart user productId quantity
  | unnamed_part_001 => Part001.updateProductInCart user productId quantity
  end.

Definition removeItem (impl : Impl) (user : Doc User.t) (productId : string) : Promise unit :=
  match impl with
  | services_cart_service => Services.deleteProductFromCart user productId
  | unnamed_part_001 => Part001.deleteProductFromCart user productId
  end.

Definition checkout (impl : Impl) (cfg : Config) (user : Doc User.t) : Promise unit :=
  match impl with
  | services_cart_service => Services.checkout cfg user
  | unnamed_part_001 => Part001.checkout cfg user
  end.

(** A request to the cart manager.  Each request is a call of its own:
    whether it resolves or rejects, the next one runs on the world it
    leaves. *)
Inductive Call :=
| AddItem (productId : string) (quantity : Z)
| UpdateItem (productId : string) (quantity : Z)
| RemoveItem (productId : string).

Definition perform (impl : Impl) (cfg : Config) (user : Doc User.t) (call : Call)
    : Promise unit :=
  match call with
  | AddItem productId quantity =>
      let! _ := addItem impl cfg user productId quantity in resolve tt
  | UpdateItem productId quantity =>
      let! _ := updateItem impl user productId quantity in resolve tt
  | RemoveItem productId => removeItem impl user productId
  end.

(** ** Vocabulary of the specification *)

(** The sum over the cart items of quantity times product cost. *)
Definition cartTotal (items : list CartItem.t) : Z :=
  foldr (fun item sum => CartItem.quantity item * Product.cost (CartItem.product item) + sum)
        0 items.

(** The items of the user's cart; none when the user has no cart. *)
Definition userItems (email : string) (s : Store) : list CartItem.t :=
  match findCartForUser email s with
  | Some cart => Cart.cartItems cart.2
  | None => []
  end.

(** The product identities of the items, and the number of items of one
    product. *)
Definition productIds (items : list CartItem.t) : list string :=
  map productIdOf items.

Definition countOf (productId : string) (items : list CartItem.t) : nat :=
  length (List.filter (fun item => String.eqb (productIdOf item) productId) items).

(** The next write, and all the writes to come, are accepted. *)
Definition nextWriteAccepted (w : World) : Prop := head (writes w) <> Some false.

Definition writesAccepted (w : World) : Prop := Forall (fun b => b = true) (writes w).

(** The effects of the two writes of the checkout on the store. *)
Definition debited (uid : nat) (balance : Z) (s : Store) : Store :=
  {| users := alter (User.set_walletMoney balance) uid (users s);
     carts := carts s; products := products s |}.

Definition emptied (i : nat) (cart : Cart.t) (s : Store) : Store :=
  {| users := users s; carts := <[i := Cart.set_cartItems [] cart]> (carts s);
     products := products s |}.

(** The errors of the specification, as each copy throws them. *)
Definition ProductAlreadyInCart : Error :=
  ApiError BAD_REQUEST
    "Product already in cart. Use the cart sidebar to update or remove product from cart".

Definition ProductNotInCart : Error := ApiError BAD_REQUEST "Product not in cart".

Definition AddressNotSet (impl : Impl) : Error :=
  match impl with
  | services_cart_service => ApiError BAD_REQUEST " Address unavailable"
  | unnamed_part_001 => ApiError BAD_REQUEST "Address Not Set"
  end.

Definition InsufficientBalance (impl : Impl) : Error :=
  match impl with
  | services_cart_service => ApiError BAD_REQUEST "Balance insufficient"
  | unnamed_part_001 => ApiError BAD_REQUEST "User wallet balance is insufficien"
  end.

(** ** A small shop, for the scenarios *)

Module Shop.

Definition cfg : Config :=
  {| default_address := "ADDRESS_NOT_SET";
     default_payment_option := "PAYMENT_OPTION_DEFAULT";
     cartSchema_paymentOption := "PAYMENT_OPTION_DEFAULT" |}.

Definition widget : Product.t := {| Product._id := "widget"; Product.cost := 10 |}.
Definition gadget : Product.t := {| Product._id := "gadget"; Product.cost := 5 |}.

Definition line (product : Product.t) (quantity : Z) : CartItem.t :=
  {| CartItem.product := product; CartItem.quantity := quantity |}.

Definition alice : User.t :=
  {| User.email := "alice@example.com"; User.walletMoney := 30;
     User.address := "12 Mill Lane" |}.
Definition bob : User.t :=
  {| User.email := "bob@example.com"; User.walletMoney := 20;
     User.address := "ADDRESS_NOT_SET" |}.
Definition carol : User.t :=
  {| User.email := "carol@example.com"; User.walletMoney := 25;
     User.address := "3 Quay Road" |}.

Definition cartOf (user : User.t) (items : list CartItem.t) : Cart.t :=
  {| Cart.email := User.email user; Cart.cartItems := items;
     Cart.paymentOption := "PAYMENT_OPTION_DEFAULT" |}.

Definition basket : list CartItem.t := [line widget 2; line gadget 1].

(** Bob's cart comes first, then Alice's and Carol's; Alice and Carol hold
    the basket of the scenarios, Bob two lines of the same product. *)
Definition store : Store :=
  {| users := [alice; bob; carol];
     carts := [cartOf bob [line widget 1; line widget 2]; cartOf alice basket;
               cartOf carol basket];
     products := [widget; gadget] |}.

(** A store in which nobody has a cart yet. *)
Definition fresh : Store :=
  {| users := [alice; bob; carol]; carts := []; products := [widget; gadget] |}.

Definition world (s : Store) (outcomes : list bool) : World :=
  {| db := s; writes := outcomes |}.

End Shop.

(** ** Vocabulary of the proofs *)

(** [n] is the position of the last, or of the first, item of the product. *)
Definition lastMatch (productId : string) (items : list CartItem.t) (n : nat) : Prop :=
  (exists item, items !! n = Some item /\ productIdOf item = productId) /\
  forall m item, (n < m)%nat -> items !! m = Some item -> productIdOf item <> productId.

Definition firstMatch (productId : string) (items : list CartItem.t) (n : nat) : Prop :=
  (exists item, items !! n = Some item /\ productIdOf item = productId) /\
  forall m item, (m < n)%nat -> items !! m = Some item -> productIdOf item <> productId.

(** What one request can do to the items of the user's cart. *)
Inductive itemsStep (old : list CartItem.t) : list CartItem.t -> Prop :=
| step_same : itemsStep old old
| step_push product quantity :
    Product._id product ∉ productIds old ->
    itemsStep old (old ++ [{| CartItem.product := product; CartItem.quantity := quantity |}])
| step_alter quantity n : itemsStep old (alter (CartItem.set_quantity quantity) n old)
| step_delete n : itemsStep old (delete n old).

(** The store after a cart document is saved. *)
Definition withCart (i : nat) (cart : Cart.t) (s : Store) : Store :=
  {| users := users s; carts := <[i := cart]> (carts s); products := products s |}.

(** The cart a first [addItem] creates, and the store once it is created. *)
Definition newCart (impl : Impl) (cfg : Config) (email : string) : Cart.t :=
  {| Cart.email := email; Cart.cartItems := [];
     Cart.paymentOption :=
       match impl with
       | services_cart_service => default_payment_option cfg
       | unnamed_part_001 => cartSchema_paymentOption cfg
       end |}.

Definition created (fields : Cart.t) (s : Store) : Store :=
  {| users := users s; carts := carts s ++ [fields]; products := products s |}.

(** Unfolds the plumbing of asynchronous computations, not the store. *)
Ltac run :=
  cbv beta iota zeta delta
    [await resolve throw try_catch Cart_findOne Product_findById
     hasSetNonDefaultAddress].

(** ** The rest of the service and of the user model *)

(** [getCartByUser], for either copy. *)
Definition getCart (impl : Impl) (user : Doc User.t) : Promise (Doc Cart.t) :=
  match impl with
  | services_cart_service => Services.getCartByUser user
  | unnamed_part_001 => Part001.getCartByUser user
  end.



(** Requests of several users, one after the other: a request to the cart
    manager or a checkout. *)
Inductive Request :=
| CartRequest (user : Doc User.t) (call : Call)
| Checkout (user : Doc User.t).

Definition handle (impl : Impl) (cfg : Config) (request : Request) : Promise unit :=
  match request with
  | CartRequest user call => perform impl cfg user call
  | Checkout user => checkout impl cfg user
  end.

Definition serve (impl : Impl) (cfg : Config) (requests : list Request) (w : World) : World :=
  fold_left (fun w request => (handle impl cfg request w).2) requests w.

(** What one request to the cart manager can do to the store: nothing,
    save the user's cart with its items changed by one step, create the
    user's cart, or create it and save it with a first item. *)
Inductive storeStep (email : string) (s : Store) : Store -> Prop :=
| store_same : storeStep email s s
| store_saved i cart items :
    findCartForUser email s = Some (i, cart) ->
    itemsStep (Cart.cartItems cart) items ->
    storeStep email s (withCart i (Cart.set_cartItems items cart) s)
| store_created fields :
    findCartForUser email s = None ->
    Cart.email fields = email -> Cart.cartItems fields = [] ->
    storeStep email s (created fields s)
| store_created_saved fields items :
    findCartForUser email s = None ->
    Cart.email fields = email -> Cart.cartItems fields = [] ->
    itemsStep [] items ->
    storeStep email s
      (withCart (length (carts s)) (Cart.set_cartItems items fields) (created fields s)).

(** Every cart holds at most one item per product; no two carts share an
    email. *)
Definition linesUnique (s : Store) : Prop :=
  Forall (fun cart => NoDup (productIds (Cart.cartItems cart))) (carts s).

Definition oneCartPerEmail (s : Store) : Prop :=
  NoDup (Cart.email <$> carts s).


(** ** Identifiers as Mongoose prints them

    A stored [_id] is an [ObjectId]; compared with [==] against the string
    of a request it is first printed, as 24 hexadecimal digits in lower
    case.  A request may spell an identifier otherwise (upper-case digits,
    or a string that is no identifier at all): the lookups of Mongoose
    cast such a string, or fail on it, while the scans of the cart compare
    it as it is.  The store of the model keeps identifiers as strings and
    looks them up as they are, which is what the code does on identifiers
    in the printed form; the properties that depend on the lookup and the
    scan agreeing are stated for such identifiers. *)
Definition hexDigit (c : Ascii.ascii) : bool :=
  let n := Ascii.nat_of_ascii c in
  ((48 <=? n)%nat && (n <=? 57)%nat) || ((97 <=? n)%nat && (n <=? 102)%nat).

Definition canonicalId (id : string) : bool :=
  (String.length id =? 24)%nat && forallb hexDigit (list_ascii_of_string id).

Definition callId (call : Call) : string :=
  match call with
  | AddItem productId _ | UpdateItem productId _ | RemoveItem productId => productId
  end.

Definition canonicalRequest (request : Request) : Prop :=
  match request with
  | CartRequest _ call => canonicalId (callId call) = true
  | Checkout _ => True
  end.

Definition canonicalStore (s : Store) : Prop :=
  Forall (fun product => canonicalId (Product._id product) = true) (products s) /\
  Forall (fun cart =>
            Forall (fun item => canonicalId (productIdOf item) = true)
                   (Cart.cartItems cart))
         (carts s).

(** A catalogue with identifiers in the printed form. *)
Module Hardware.

Definition bolt : Product.t :=
  {| Product._id := "5f71c1ca04c69a5874e9fd45"; Product.cost := 3 |}.
Definition nut : Product.t :=
  {| Product._id := "5f71c1ca04c69a5874e9fd46"; Product.cost := 2 |}.

Definition store : Store :=
  {| users := users Shop.store;
     carts := [Shop.cartOf Shop.alice [Shop.line bolt 4]];
     products := [bolt; nut] |}.

Definition fresh : Store :=
  {| users := users Shop.store; carts := []; products := [bolt; nut] |}.

End Hardware.

(** ** Amounts as JavaScript numbers

    [walletMoney], [cost] and [quantity] are JavaScript numbers, that is
    IEEE 754 binary64: sums, products and differences are rounded to the
    nearest number (ties to even), and comparisons with [NaN] are false.
    The properties of the settlement that depend on the arithmetic are
    stated over this second embedding of [checkout], in which the amounts
    are the [spec_float]s of precision 53 and the documents, the store and
    the computations are as above. *)
Module Binary64.

Definition prec : Z := 53.
Definition emax : Z := 1024.
Definition number : Type := spec_float.

(** [+0], [x + y], [x - y], [x * y], [x < y] and [x > y]. *)
Definition zero : number := S754_zero false.
Definition plus : number -> number -> number := SFadd prec emax.
Definition minus : number -> number -> number := SFsub prec emax.
Definition times : number -> number -> number := SFmul prec emax.
Definition less (x y : number) : bool := SFltb x y.
Definition greater (x y : number) : bool := SFltb y x.

(** The triples of [spec_float] that are numbers of binary64 (every
    JavaScript number is one; the type has other triples, with mantissas
    that are too long or not normalised), and the numbers that are
    neither [NaN] nor infinite. *)
Definition valid (x : number) : bool := valid_binary prec emax x.
Definition finite (x : number) : bool :=
  match x with S754_zero _ | S754_finite _ _ _ => true | _ => false end.

(** The number an integer literal denotes, and the integer a number is,
    if it is one. *)
Definition ofZ (z : Z) : number := binary_normalize prec emax z 0 false.

Definition toZ (x : number) : option Z :=
  match x with
  | S754_zero _ => Some 0
  | S754_finite s m e =>
      if 0 <=? e then Some (cond_Zopp s (Zpos m * 2 ^ e))
      else if Zpos m mod 2 ^ (- e) =? 0 then Some (cond_Zopp s (Zpos m / 2 ^ (- e)))
      else None
  | _ => None
  end.

Module Product.
Record t := mk { _id : string; cost : number }.
End Product.

Module CartItem.
Record t := mk { product : Product.t; quantity : number }.
End CartItem.

Module Cart.
Record t := mk { email : string; cartItems : list CartItem.t; paymentOption : string }.
Definition set_cartItems (items : list CartItem.t) (cart : t) : t :=
  {| email := email cart; cartItems := items; paymentOption := paymentOption cart |}.
End Cart.

Module User.
Record t := mk { email : string; walletMoney : number; address : string }.
Definition set_walletMoney (m : number) (user : t) : t :=
  {| email := email user; walletMoney := m; address := address user |}.
End User.

#[global] Instance number_eq_dec : EqDecision number.
Proof. solve_decision. Defined.

#[global] Instance binary64_Product_eq_dec : EqDecision Product.t.
Proof. solve_decision. Defined.

#[global] Instance binary64_CartItem_eq_dec : EqDecision CartItem.t.
Proof. solve_decision. Defined.

#[global] Instance binary64_Cart_eq_dec : EqDecision Cart.t.
Proof. solve_decision. Defined.

(** The store, the world and the computations, as in the first embedding. *)
Record Store := {
  users : list User.t;
  carts : list Cart.t;
  products : list Product.t
}.

Record World := { db : Store; writes : list bool }.

Definition Promise (A : Type) : Type := World -> Result A * World.

Definition resolve {A} (a : A) : Promise A := fun w => (Resolved a, w).

Definition throw {A} (e : Error) : Promise A := fun w => (Rejected e, w).

Definition await {A B} (m : Promise A) (k : A -> Promise B) : Promise B :=
  fun w =>
    match m w with
    | (Resolved a, w') => k a w'
    | (Rejected e, w') => (Rejected e, w')
    end.

Declare Scope binary64_scope.
Notation "'let!' x ':=' m 'in' k" := (await m (fun x => k))
  (at level 10, x name, m at level 100, k at level 200) : binary64_scope.
Notation "m ';;;' k" := (await m (fun _ => k))
  (at level 100, k at level 200, right associativity) : binary64_scope.
Local Open Scope binary64_scope.

(** A write consumes the next outcome of the storage. *)
Definition write {A} (update : Store -> option (A * Store)) : Promise A :=
  fun w =>
    let accepted := match writes w with [] => true | b :: _ => b end in
    let w' := {| db := db w; writes := tail (writes w) |} in
    if accepted then
      match update (db w) with
      | Some (a, s') => (Resolved a, {| db := s'; writes := tail (writes w) |})
      | None => (Rejected MongoError, w')
      end
    else (Rejected MongoError, w').

Definition findCartForUser (email : string) (s : Store) : option (Doc Cart.t) :=
  list_find (fun c => Cart.email c = email) (carts s).

Definition Cart_findOne (email : string) : Promise (option (Doc Cart.t)) :=
  fun w => (Resolved (findCartForUser email (db w)), w).

(** [cart.save()]: no write is sent for a document that was not modified. *)
Definition Cart_save (cart : Doc Cart.t) : Promise unit :=
  fun w =>
    if decide (carts (db w) !! cart.1 = Some cart.2) then (Resolved tt, w)
    else
      write (fun s =>
        Some (tt, {| users := users s; carts := <[cart.1 := cart.2]> (carts s);
                     products := products s |})) w.

(** [user.save()]: [walletMoney] is written to the stored document; the
    [pre("save")] hook makes every save a write. *)
Definition User_save (user : Doc User.t) : Promise unit :=
  write (fun s =>
    match users s !! user.1 with
    | Some _ =>
        Some (tt, {| users := alter (User.set_walletMoney (User.walletMoney user.2))
                                    user.1 (users s);
                     carts := carts s; products := products s |})
    | None => None
    end).

(** [userSchema.methods.hasSetNonDefaultAddress] of [user.model.js]. *)
Definition hasSetNonDefaultAddress (cfg : Config) (user : User.t) : Promise bool :=
  resolve (negb (String.eqb (User.address user) (default_address cfg))).

(** [services/cart.service.js]. *)
Module Services.

Definition getCartByUser (user : Doc User.t) : Promise (Doc Cart.t) :=
  let! result := Cart_findOne (User.email user.2) in
  match result with
  | None => throw (ApiError NOT_FOUND "User Cart does not exist")
  | Some cart => resolve cart
  end.

(** [sub = cart.cartItems.map(item => item.product.cost * item.quantity)],
    then [total = 0; for (...) total += sub[i]]. *)
Definition subtotals (items : list CartItem.t) : list number :=
  map (fun item => times (Product.cost (CartItem.product item)) (CartItem.quantity item)) items.

Definition totalOf (sub : list number) : number :=
  fold_left (fun total x => plus total x) sub zero.

(** [checkout]: [balance = user.walletMoney - total] and the test
    [balance < 0].  The test [cart == null] after [getCartByUser] cannot
    hold, and the user is saved before the cart is emptied in memory. *)
Definition checkout (cfg : Config) (user : Doc User.t) : Promise unit :=
  let! cart := getCartByUser user in
  if (length (Cart.cartItems cart.2) =? 0)%nat then
    throw (ApiError BAD_REQUEST "No items in the cart")
  else if String.eqb (User.address user.2) (default_address cfg) then
    throw (ApiError BAD_REQUEST " Address unavailable")
  else
    let! defaultAddressFlag := hasSetNonDefaultAddress cfg user.2 in
    let sub := subtotals (Cart.cartItems cart.2) in
    let total := totalOf sub in
    let balance := minus (User.walletMoney user.2) total in
    if less balance zero then
      throw (ApiError BAD_REQUEST "Balance insufficient")
    else
      let user := (user.1, User.set_walletMoney balance user.2) in
      User_save user ;;;
      let cart := (cart.1, Cart.set_cartItems [] cart.2) in
      Cart_save cart.

End Services.

(** The second copy, [unnamed/part_001]. *)
Module Part001.

(** [cart.cartItems.reduce((sum, item) => sum + item.quantity*item.product.cost, 0)]. *)
Definition totalCostOf (items : list CartItem.t) : number :=
  fold_left
    (fun sum item =>
       plus sum (times (CartItem.quantity item) (Product.cost (CartItem.product item))))
    items zero.

(** [checkout]: the test [totalCost > user.walletMoney], then
    [user.walletMoney -= totalCost]. *)
Definition checkout (cfg : Config) (user : Doc User.t) : Promise unit :=
  let! found := Cart_findOne (User.email user.2) in
  match found with
  | None => throw (ApiError NOT_FOUND "User does not have a cart")
  | Some cart =>
      if (length (Cart.cartItems cart.2) =? 0)%nat then
        throw (ApiError BAD_REQUEST "Cart doesn't have any product")
      else
        let! isAddressPresent := hasSetNonDefaultAddress cfg user.2 in
        if negb isAddressPresent then
          throw (ApiError BAD_REQUEST "Address Not Set")
        else
          let totalCost := totalCostOf (Cart.cartItems cart.2) in
          if greater totalCost (User.walletMoney user.2) then
            throw (ApiError BAD_REQUEST "User wallet balance is insufficien")
          else
            let user :=
              (user.1,
               User.set_walletMoney (minus (User.walletMoney user.2) totalCost) user.2) in
            let cart := (cart.1, Cart.set_cartItems [] cart.2) in
            User_save user ;;;
            Cart_save cart
  end.

End Part001.

Definition checkout (impl : Impl) (cfg : Config) (user : Doc User.t) : Promise unit :=
  match impl with
  | services_cart_service => Services.checkout cfg user
  | unnamed_part_001 => Part001.checkout cfg user
  end.

(** The total as each copy computes it. *)
Definition computedTotal (impl : Impl) (items : list CartItem.t) : number :=
  match impl with
  | services_cart_service => Services.totalOf (Services.subtotals items)
  | unnamed_part_001 => Part001.totalCostOf items
  end.

Definition userItems (email : string) (s : Store) : list CartItem.t :=
  match findCartForUser email s with
  | Some cart => Cart.cartItems cart.2
  | None => []
  end.

Definition writesAccepted (w : World) : Prop := Forall (fun b => b = true) (writes w).

(** The store once both writes of a checkout are done. *)
Definition settled (uid : nat) (balance : number) (i : nat) (cart : Cart.t) (s : Store)
    : Store :=
  {| users := alter (User.set_walletMoney balance) uid (users s);
     carts := <[i := Cart.set_cartItems [] cart]> (carts s);
     products := products s |}.

(** The test of the balance, as each copy writes it: [balance < 0] on the
    difference, and [totalCost > user.walletMoney]. *)
Definition insufficient (impl : Impl) (wallet total : number) : bool :=
  match impl with
  | services_cart_service => less (minus wallet total) zero
  | unnamed_part_001 => greater total wallet
  end.

(** A till, for the examples: a user with one cart. *)
Definition line (productId : string) (cost quantity : Z) : CartItem.t :=
  {| CartItem.product := {| Product._id := productId; Product.cost := ofZ cost |};
     CartItem.quantity := ofZ quantity |}.

Definition till (wallet : Z) (items : list CartItem.t) : World :=
  {| db := {| users := [{| User.email := "alice@example.com";
                           User.walletMoney := ofZ wallet;
                           User.address := "12 Mill Lane" |}];
              carts := [{| Cart.email := "alice@example.com"; Cart.cartItems := items;
                           Cart.paymentOption := "PAYMENT_OPTION_DEFAULT" |}];
              products := [] |};
     writes := [] |}.

Definition customer (wallet : Z) : Doc User.t :=
  (0%nat, {| User.email := "alice@example.com"; User.walletMoney := ofZ wallet;
             User.address := "12 Mill Lane" |}).

End Binary64.

(** * Properties *)

(** ** The scans of the cart *)

Lemma productIds_cons item items :
  productIds (item :: items) = productIdOf item :: productIds items.
Proof. reflexivity. Qed.

Lemma absent_Forall productId items :
  productId ∉ productIds items <->
  Forall (fun item => productIdOf item <> productId) items.
Proof.
  induction items as [|item rest IH].
  - split; [constructor | intros _ H; inversion H].
  - rewrite productIds_cons. split.
    + intros [Hne Hrest]%not_elem_of_cons. constructor; [congruence | by apply IH].
    + intros [Hne Hrest]%Forall_cons_1. apply not_elem_of_cons. split; [congruence | by apply IH].
Qed.

Lemma lastMatch_exists productId items :
  productId ∈ productIds items -> exists n, lastMatch productId items n.
Proof.
  induction items as [|item rest IH]; intros Hin.
  - inversion Hin.
  - destruct (decide (productId ∈ productIds rest)) as [Hrest|Hrest].
    + destruct (IH Hrest) as (n & (it & Hit & Hid) & Hlast).
      exists (S n). split; [exists it; auto|].
      intros [|m] it' Hlt Hm; [lia|]. apply (Hlast m); [lia | exact Hm].
    + exists 0%nat. rewrite productIds_cons in Hin.
      apply elem_of_cons in Hin as [Heq|Hin]; [|contradiction].
      split; [exists item; auto|].
      intros [|m] it' Hlt Hm; [lia|]. simpl in Hm.
      apply absent_Forall in Hrest.
      exact (Forall_lookup_1 _ _ _ _ Hrest Hm).
Qed.

Lemma firstMatch_exists productId items :
  productId ∈ productIds items -> exists n, firstMatch productId items n.
Proof.
  induction items as [|item rest IH]; intros Hin.
  - inversion Hin.
  - destruct (decide (productIdOf item = productId)) as [Heq|Hne].
    + exists 0%nat. split; [exists item; auto | intros m it' Hlt; lia].
    + rewrite productIds_cons in Hin.
      apply elem_of_cons in Hin as [Heq|Hin]; [congruence|].
      destruct (IH Hin) as (n & (it & Hit & Hid) & Hfirst).
      exists (S n). split; [exists it; auto|].
      intros [|m] it' Hlt Hm; simpl in Hm; [congruence|].
      apply (Hfirst m); [lia | exact Hm].
Qed.

Lemma match_present productId items n item :
  items !! n = Some item -> productIdOf item = productId -> productId ∈ productIds items.
Proof.
  intros Hn <-. unfold productIds. apply list_elem_of_fmap. exists item. split; [done|].
  eapply list_elem_of_lookup_2; eauto.
Qed.

Module ServicesFacts.

Lemma scanFrom_absent productId items i productIndex :
  productId ∉ productIds items ->
  Services.scanFrom productId items i productIndex = productIndex.
Proof.
  revert i productIndex. induction items as [|item rest IH]; intros i acc Habs; [done|].
  rewrite productIds_cons in Habs. apply not_elem_of_cons in Habs as [Hne Hrest].
  simpl. rewrite IH by done.
  destruct (String.eqb_spec productId (productIdOf item)); congruence.
Qed.

Lemma scanFrom_last productId items n i productIndex :
  lastMatch productId items n ->
  Services.scanFrom productId items i productIndex = i + Z.of_nat n.
Proof.
  revert n i productIndex. induction items as [|item rest IH];
    intros n i acc ((it & Hit & Hid) & Hlast); [done|].
  destruct n as [|n]; simpl in *.
  - injection Hit as ->. rewrite <- Hid, String.eqb_refl.
    rewrite scanFrom_absent; [lia|].
    apply absent_Forall, Forall_lookup. intros m it' Hm.
    rewrite Hid. apply (Hlast (S m)); [lia | done].
  - rewrite (IH n); [lia|]. split; [exists it; auto|].
    intros m it' Hlt Hm. apply (Hlast (S m)); [lia | done].
Qed.

Lemma productIndexOf_absent productId items :
  productId ∉ productIds items -> Services.productIndexOf productId items = -1.
Proof. apply scanFrom_absent. Qed.

Lemma productIndexOf_last productId items n :
  lastMatch productId items n ->
  Services.productIndexOf productId items = Z.of_nat n.
Proof. intros H. unfold Services.productIndexOf. rewrite (scanFrom_last _ _ n); [lia | done]. Qed.

Lemma totalOf_from sub total :
  fold_left (fun total x => total + x) sub total = total + Services.totalOf sub.
Proof.
  unfold Services.totalOf. revert total.
  induction sub as [|x sub IH]; intros total; simpl; [lia|].
  rewrite (IH (total + x)), (IH (0 + x)). lia.
Qed.

Lemma total_cartTotal items :
  Services.totalOf (Services.subtotals items) = cartTotal items.
Proof.
  induction items as [|item rest IH]; [done|].
  unfold Services.totalOf. simpl. rewrite totalOf_from, IH. lia.
Qed.

End ServicesFacts.

Module Part001Facts.

Lemma itemsOfProduct_absent productId items :
  productId ∉ productIds items -> Part001.itemsOfProduct productId items = [].
Proof.
  induction items as [|item rest IH]; intros Habs; [done|].
  rewrite productIds_cons in Habs. apply not_elem_of_cons in Habs as [Hne Hrest].
  simpl. rewrite IH by done.
  destruct (String.eqb_spec (productIdOf item) productId); congruence.
Qed.

Lemma itemsOfProduct_present productId items :
  productId ∈ productIds items ->
  (0 < length (Part001.itemsOfProduct productId items))%nat.
Proof.
  induction items as [|item rest IH]; intros Hin; [inversion Hin|].
  simpl. destruct (String.eqb_spec (productIdOf item) productId) as [Heq|Hne]; simpl; [lia|].
  rewrite productIds_cons in Hin.
  apply elem_of_cons in Hin as [Heq|Hin]; [congruence | auto].
Qed.

Lemma firstIndexFrom_absent productId items i :
  productId ∉ productIds items -> Part001.firstIndexFrom productId items i = None.
Proof.
  revert i. induction items as [|item rest IH]; intros i Habs; [done|].
  rewrite productIds_cons in Habs. apply not_elem_of_cons in Habs as [Hne Hrest].
  simpl. destruct (String.eqb_spec (productIdOf item) productId); [congruence | auto].
Qed.

Lemma firstIndexFrom_first productId items n i :
  firstMatch productId items n ->
  Part001.firstIndexFrom productId items i = Some (i + n)%nat.
Proof.
  revert n i. induction items as [|item rest IH];
    intros n i ((it & Hit & Hid) & Hfirst); [done|].
  destruct n as [|n]; simpl in *.
  - injection Hit as ->. rewrite Hid, String.eqb_refl. f_equal. lia.
  - destruct (String.eqb_spec (productIdOf item) productId) as [Heq|Hne].
    + exfalso. apply (Hfirst 0%nat item); [lia | done | done].
    + rewrite (IH n); [f_equal; lia|]. split; [exists it; auto|].
      intros m it' Hlt Hm. apply (Hfirst (S m)); [lia | done].
Qed.

Lemma totalCostOf_from items sum :
  fold_left
    (fun sum item => sum + CartItem.quantity item * Product.cost (CartItem.product item))
    items sum = sum + cartTotal items.
Proof.
  revert sum. induction items as [|item rest IH]; intros sum; simpl; [lia|].
  rewrite IH. lia.
Qed.

Lemma totalCost_cartTotal items : Part001.totalCostOf items = cartTotal items.
Proof. unfold Part001.totalCostOf. rewrite totalCostOf_from. lia. Qed.

End Part001Facts.

(** ** The store *)

Lemma findCart_lookup email s i cart :
  findCartForUser email s = Some (i, cart) ->
  carts s !! i = Some cart /\ Cart.email cart = email.
Proof. intros (? & ? & _)%list_find_Some. done. Qed.

Lemma findCart_withCart email s i cart cart' :
  findCartForUser email s = Some (i, cart) ->
  Cart.email cart' = email ->
  findCartForUser email (withCart i cart' s) = Some (i, cart').
Proof.
  intros (Hi & _ & Hleast)%list_find_Some Hemail.
  apply list_find_Some. simpl. split_and!.
  - apply list_lookup_insert_eq. eapply lookup_lt_Some; eauto.
  - done.
  - intros j y Hj Hlt. rewrite list_lookup_insert_ne in Hj by lia. eauto.
Qed.

Lemma findCart_created email s fields :
  findCartForUser email s = None ->
  Cart.email fields = email ->
  findCartForUser email
    {| users := users s; carts := carts s ++ [fields]; products := products s |}
  = Some (length (carts s), fields).
Proof.
  intros Hnone Hemail. unfold findCartForUser in *. simpl.
  rewrite list_find_app_r by done. simpl.
  rewrite decide_True by done. done.
Qed.

Lemma userItems_found email s i cart :
  findCartForUser email s = Some (i, cart) -> userItems email s = Cart.cartItems cart.
Proof. intros H. unfold userItems. by rewrite H. Qed.

Lemma userItems_absent email s :
  findCartForUser email s = None -> userItems email s = [].
Proof. intros H. unfold userItems. by rewrite H. Qed.

(** ** Writes *)

Lemma nextWriteAccepted_cases w :
  nextWriteAccepted w \/ head (writes w) = Some false.
Proof.
  unfold nextWriteAccepted. destruct (writes w) as [|[] ?]; simpl; auto; left; congruence.
Qed.

Lemma write_accepted {A} (update : Store -> option (A * Store)) w a s' :
  nextWriteAccepted w -> update (db w) = Some (a, s') ->
  write update w = (Resolved a, {| db := s'; writes := tail (writes w) |}).
Proof.
  unfold nextWriteAccepted, write. intros Hacc ->.
  destruct (writes w) as [|[] ?]; simpl in *; congruence.
Qed.

Lemma write_rejected {A} (update : Store -> option (A * Store)) w :
  head (writes w) = Some false ->
  write update w = (Rejected MongoError, {| db := db w; writes := tail (writes w) |}).
Proof.
  unfold write. intros Hrej. destruct (writes w) as [|[] ?]; simpl in *; congruence.
Qed.

Lemma Cart_save_unmodified cart w :
  carts (db w) !! cart.1 = Some cart.2 -> Cart_save cart w = (Resolved tt, w).
Proof. intros H. unfold Cart_save. by rewrite decide_True. Qed.

Lemma Cart_save_accepted cart w :
  nextWriteAccepted w ->
  carts (db w) !! cart.1 <> Some cart.2 ->
  Cart_save cart w =
    (Resolved tt, {| db := withCart cart.1 cart.2 (db w); writes := tail (writes w) |}).
Proof.
  intros H Hmodified. unfold Cart_save. rewrite decide_False by done.
  by erewrite write_accepted.
Qed.

Lemma Cart_save_rejected cart w :
  head (writes w) = Some false ->
  carts (db w) !! cart.1 <> Some cart.2 ->
  Cart_save cart w = (Rejected MongoError, {| db := db w; writes := tail (writes w) |}).
Proof.
  intros H Hmodified. unfold Cart_save. rewrite decide_False by done.
  by apply write_rejected.
Qed.

Lemma withCart_stored s i cart : carts s !! i = Some cart -> withCart i cart s = s.
Proof. intros H. destruct s. unfold withCart. simpl in *. by rewrite list_insert_id. Qed.

(** With the storage accepting, a save resolves and the store holds the
    cart, whether or not a write had to be sent. *)
Lemma Cart_save_resolves cart w :
  nextWriteAccepted w ->
  exists w', Cart_save cart w = (Resolved tt, w') /\
             db w' = withCart cart.1 cart.2 (db w).
Proof.
  intros Hacc. destruct (decide (carts (db w) !! cart.1 = Some cart.2)) as [Hsame|Hmod].
  - exists w. split; [by apply Cart_save_unmodified | by rewrite withCart_stored].
  - eexists. split; [by apply Cart_save_accepted | done].
Qed.

(** Whatever the storage does, a save leaves the store as it was or with
    the cart in its place. *)
Lemma Cart_save_store cart w :
  db (Cart_save cart w).2 = db w \/
  (nextWriteAccepted w /\ db (Cart_save cart w).2 = withCart cart.1 cart.2 (db w)).
Proof.
  destruct (decide (carts (db w) !! cart.1 = Some cart.2)) as [Hsame|Hmod].
  - left. by rewrite Cart_save_unmodified.
  - destruct (nextWriteAccepted_cases w) as [Hacc|Hrej].
    + right. split; [done|]. by rewrite Cart_save_accepted.
    + left. by rewrite Cart_save_rejected.
Qed.

Lemma writesAccepted_next w : writesAccepted w -> nextWriteAccepted w.
Proof.
  unfold writesAccepted, nextWriteAccepted. destruct (writes w) as [|b ?]; simpl; [done|].
  intros [-> _]%Forall_cons_1. congruence.
Qed.

Lemma writesAccepted_tail w s' :
  writesAccepted w -> writesAccepted {| db := s'; writes := tail (writes w) |}.
Proof.
  unfold writesAccepted. simpl. intros H. destruct (writes w); simpl; [done|].
  by apply Forall_cons_1 in H as [_ ?].
Qed.

(** ** The operations, case by case *)

Lemma index_not_minus_one n : (Z.of_nat n =? -1) = false.
Proof. apply Z.eqb_neq. lia. Qed.

Lemma updateItem_no_cart impl user productId quantity w :
  findCartForUser (User.email user.2) (db w) = None ->
  exists message, updateItem impl user productId quantity w
                  = (Rejected (ApiError BAD_REQUEST message), w).
Proof.
  intros Hnone. destruct impl; simpl;
    unfold Services.updateProductInCart, Part001.updateProductInCart; run;
    rewrite Hnone; eauto.
Qed.

Lemma updateItem_unknown impl user productId quantity w i cart :
  findCartForUser (User.email user.2) (db w) = Some (i, cart) ->
  findById productId (db w) = None ->
  exists message, updateItem impl user productId quantity w
                  = (Rejected (ApiError BAD_REQUEST message), w).
Proof.
  intros Hcart Hnone. destruct impl; simpl;
    unfold Services.updateProductInCart, Part001.updateProductInCart; run;
    rewrite Hcart, Hnone; eauto.
Qed.

Lemma updateItem_absent impl user productId quantity w i cart product :
  findCartForUser (User.email user.2) (db w) = Some (i, cart) ->
  findById productId (db w) = Some product ->
  productId ∉ productIds (Cart.cartItems cart) ->
  updateItem impl user productId quantity w = (Rejected ProductNotInCart, w).
Proof.
  intros Hcart Hprod Habs. destruct impl; simpl;
    unfold Services.updateProductInCart, Part001.updateProductInCart; run;
    rewrite Hcart, Hprod.
  - by rewrite ServicesFacts.productIndexOf_absent.
  - by rewrite Part001Facts.firstIndexFrom_absent.
Qed.

Lemma Services_update_last user productId quantity w i cart product n :
  findCartForUser (User.email user.2) (db w) = Some (i, cart) ->
  findById productId (db w) = Some product ->
  lastMatch productId (Cart.cartItems cart) n ->
  let cart' :=
    (i, Cart.set_cartItems
          (alter (CartItem.set_quantity quantity) n (Cart.cartItems cart)) cart) in
  Services.updateProductInCart user productId quantity w
  = (Cart_save cart' ;;; resolve cart') w.
Proof.
  intros Hcart Hprod Hlast. unfold Services.updateProductInCart; run.
  rewrite Hcart, Hprod, (ServicesFacts.productIndexOf_last _ _ n) by done.
  by rewrite index_not_minus_one, Nat2Z.id.
Qed.

Lemma Part001_update_first user productId quantity w i cart product n :
  findCartForUser (User.email user.2) (db w) = Some (i, cart) ->
  findById productId (db w) = Some product ->
  firstMatch productId (Cart.cartItems cart) n ->
  let cart' :=
    (i, Cart.set_cartItems
          (alter (CartItem.set_quantity quantity) n (Cart.cartItems cart)) cart) in
  Part001.updateProductInCart user productId quantity w
  = (Cart_save cart' ;;; resolve cart') w.
Proof.
  intros Hcart Hprod Hfirst. unfold Part001.updateProductInCart; run.
  rewrite Hcart, Hprod, (Part001Facts.firstIndexFrom_first _ _ n) by done.
  done.
Qed.

Lemma removeItem_no_cart impl user productId w :
  findCartForUser (User.email user.2) (db w) = None ->
  exists message, removeItem impl user productId w
                  = (Rejected (ApiError BAD_REQUEST message), w).
Proof.
  intros Hnone. destruct impl; simpl;
    unfold Services.deleteProductFromCart, Part001.deleteProductFromCart; run;
    rewrite Hnone; eauto.
Qed.

Lemma removeItem_absent impl user productId w i cart :
  findCartForUser (User.email user.2) (db w) = Some (i, cart) ->
  productId ∉ productIds (Cart.cartItems cart) ->
  removeItem impl user productId w = (Rejected ProductNotInCart, w).
Proof.
  intros Hcart Habs. destruct impl; simpl;
    unfold Services.deleteProductFromCart, Part001.deleteProductFromCart; run;
    rewrite Hcart.
  - by rewrite ServicesFacts.productIndexOf_absent.
  - by rewrite Part001Facts.itemsOfProduct_absent.
Qed.

Lemma Services_delete_last user productId w i cart n :
  findCartForUser (User.email user.2) (db w) = Some (i, cart) ->
  lastMatch productId (Cart.cartItems cart) n ->
  Services.deleteProductFromCart user productId w
  = Cart_save (i, Cart.set_cartItems (delete n (Cart.cartItems cart)) cart) w.
Proof.
  intros Hcart Hlast. unfold Services.deleteProductFromCart; run.
  rewrite Hcart, (ServicesFacts.productIndexOf_last _ _ n) by done.
  by rewrite index_not_minus_one, Nat2Z.id.
Qed.

Lemma pull_other_path path matches cart :
  path <> "cartItems" -> pull path matches cart = cart.
Proof. intros Hne. unfold pull. by destruct (String.eqb_spec path "cartItems"). Qed.

Lemma withCart_same s i cart : carts s !! i = Some cart -> carts (withCart i cart s) = carts s.
Proof. intros H. simpl. by apply list_insert_id. Qed.

Lemma Part001_delete_present user productId w i cart :
  findCartForUser (User.email user.2) (db w) = Some (i, cart) ->
  productId ∈ productIds (Cart.cartItems cart) ->
  Part001.deleteProductFromCart user productId w = (Resolved tt, w).
Proof.
  intros Hcart Hin. unfold Part001.deleteProductFromCart; run.
  rewrite Hcart. cbn [fst snd].
  pose proof (Part001Facts.itemsOfProduct_present _ _ Hin) as Hlen.
  by destruct (Nat.eqb_spec (length (Part001.itemsOfProduct productId (Cart.cartItems cart))) 0);
    [lia|].
Qed.

Lemma addItem_duplicate impl cfg user productId quantity w i cart :
  findCartForUser (User.email user.2) (db w) = Some (i, cart) ->
  productId ∈ productIds (Cart.cartItems cart) ->
  addItem impl cfg user productId quantity w = (Rejected ProductAlreadyInCart, w).
Proof.
  intros Hcart Hin. destruct impl; simpl;
    unfold Services.addProductToCart, Part001.addProductToCart; run;
    rewrite Hcart; cbn [fst snd].
  - destruct (lastMatch_exists _ _ Hin) as [n Hlast].
    by rewrite (ServicesFacts.productIndexOf_last _ _ n), index_not_minus_one.
  - pose proof (Part001Facts.itemsOfProduct_present _ _ Hin) as Hlen.
    by destruct (Nat.ltb_spec 0
      (length (Part001.itemsOfProduct productId (Cart.cartItems cart)))); [|lia].
Qed.

Lemma addItem_found impl cfg user productId quantity w i cart :
  findCartForUser (User.email user.2) (db w) = Some (i, cart) ->
  productId ∉ productIds (Cart.cartItems cart) ->
  addItem impl cfg user productId quantity w =
    match findById productId (db w) with
    | None => (Rejected (ApiError BAD_REQUEST "Product doesn't exist in database"), w)
    | Some product =>
        let cart' :=
          (i, Cart.set_cartItems
                (Cart.cartItems cart ++
                 [{| CartItem.product := product; CartItem.quantity := quantity |}])
                cart) in
        (Cart_save cart' ;;; resolve cart') w
    end.
Proof.
  intros Hcart Habs. destruct impl; simpl;
    unfold Services.addProductToCart, Part001.addProductToCart; run;
    rewrite Hcart; cbn [fst snd].
  - rewrite ServicesFacts.productIndexOf_absent by done. simpl.
    by destruct (findById productId (db w)).
  - rewrite Part001Facts.itemsOfProduct_absent by done. simpl.
    by destruct (findById productId (db w)).
Qed.

Lemma addItem_not_created impl cfg user productId quantity w :
  findCartForUser (User.email user.2) (db w) = None ->
  head (writes w) = Some false ->
  exists message,
    addItem impl cfg user productId quantity w
    = (Rejected (ApiError INTERNAL_SERVER_ERROR message),
       {| db := db w; writes := tail (writes w) |}).
Proof.
  intros Hnone Hrej. destruct impl; simpl;
    unfold Services.addProductToCart, Part001.addProductToCart; run;
    rewrite Hnone; unfold Cart_create; rewrite write_rejected by done; eauto.
Qed.

Lemma addItem_created impl cfg user productId quantity w :
  findCartForUser (User.email user.2) (db w) = None ->
  nextWriteAccepted w ->
  let fields := newCart impl cfg (User.email user.2) in
  let w' := {| db := created fields (db w); writes := tail (writes w) |} in
  addItem impl cfg user productId quantity w =
    match findById productId (db w) with
    | None => (Rejected (ApiError BAD_REQUEST "Product doesn't exist in database"), w')
    | Some product =>
        let cart' :=
          (length (carts (db w)),
           Cart.set_cartItems
             [{| CartItem.product := product; CartItem.quantity := quantity |}] fields) in
        (Cart_save cart' ;;; resolve cart') w'
    end.
Proof.
  intros Hnone Hacc. destruct impl; simpl;
    unfold Services.addProductToCart, Part001.addProductToCart; run;
    rewrite Hnone; unfold Cart_create;
    erewrite write_accepted by (try done; reflexivity); cbn [fst snd];
    unfold findById; simpl;
    by destruct (list_find _ (products (db w))).
Qed.

Lemma User_save_accepted uid user stored w :
  nextWriteAccepted w ->
  users (db w) !! uid = Some stored ->
  User_save (uid, user) w =
    (Resolved tt, {| db := debited uid (User.walletMoney user) (db w);
                     writes := tail (writes w) |}).
Proof.
  intros Hacc Hstored. unfold User_save. erewrite write_accepted; [done | done |].
  cbn [fst snd]. by rewrite Hstored.
Qed.

Lemma User_save_rejected user w :
  head (writes w) = Some false ->
  User_save user w = (Rejected MongoError, {| db := db w; writes := tail (writes w) |}).
Proof. apply write_rejected. Qed.

Lemma length_zero_nil {A} (l : list A) : (length l =? 0)%nat = true <-> l = [].
Proof. destruct l; simpl; split; congruence. Qed.

Lemma checkout_no_cart impl cfg user w :
  findCartForUser (User.email user.2) (db w) = None ->
  exists message, checkout impl cfg user w = (Rejected (ApiError NOT_FOUND message), w).
Proof.
  intros Hnone. destruct impl; simpl;
    unfold Services.checkout, Services.getCartByUser, Part001.checkout; run;
    rewrite Hnone; eauto.
Qed.

Lemma checkout_empty_cart impl cfg user w i cart :
  findCartForUser (User.email user.2) (db w) = Some (i, cart) ->
  Cart.cartItems cart = [] ->
  exists message, checkout impl cfg user w = (Rejected (ApiError BAD_REQUEST message), w).
Proof.
  intros Hcart Hnil. destruct impl; simpl;
    unfold Services.checkout, Services.getCartByUser, Part001.checkout; run;
    rewrite Hcart; cbn [fst snd]; rewrite Hnil; simpl; eauto.
Qed.

Lemma checkout_default_address impl cfg user w i cart :
  findCartForUser (User.email user.2) (db w) = Some (i, cart) ->
  Cart.cartItems cart <> [] ->
  User.address user.2 = default_address cfg ->
  checkout impl cfg user w = (Rejected (AddressNotSet impl), w).
Proof.
  intros Hcart Hitems Haddr.
  assert ((length (Cart.cartItems cart) =? 0)%nat = false) as Hlen.
  { apply not_true_is_false. by rewrite length_zero_nil. }
  destruct impl; simpl;
    unfold Services.checkout, Services.getCartByUser, Part001.checkout; run;
    rewrite Hcart; cbn [fst snd]; rewrite Hlen, Haddr, String.eqb_refl; done.
Qed.

Lemma checkout_validated impl cfg user w i cart :
  findCartForUser (User.email user.2) (db w) = Some (i, cart) ->
  Cart.cartItems cart <> [] ->
  User.address user.2 <> default_address cfg ->
  checkout impl cfg user w =
    let total := cartTotal (Cart.cartItems cart) in
    if total >? User.walletMoney user.2
    then (Rejected (InsufficientBalance impl), w)
    else (User_save (user.1, User.set_walletMoney (User.walletMoney user.2 - total) user.2) ;;;
          Cart_save (i, Cart.set_cartItems [] cart)) w.
Proof.
  intros Hcart Hitems Haddr.
  assert ((length (Cart.cartItems cart) =? 0)%nat = false) as Hlen.
  { apply not_true_is_false. by rewrite length_zero_nil. }
  apply String.eqb_neq in Haddr.
  destruct impl; simpl;
    unfold Services.checkout, Services.getCartByUser, Part001.checkout; run;
    rewrite Hcart; cbn [fst snd]; rewrite Hlen, Haddr; cbn [negb].
  - rewrite ServicesFacts.total_cartTotal.
    destruct (Z.ltb_spec (User.walletMoney user.2 - cartTotal (Cart.cartItems cart)) 0);
      destruct (Z.gtb_spec (cartTotal (Cart.cartItems cart)) (User.walletMoney user.2));
      try lia; done.
  - rewrite Part001Facts.totalCost_cartTotal.
    by destruct (Z.gtb_spec (cartTotal (Cart.cartItems cart)) (User.walletMoney user.2)).
Qed.

(** ** Checkout *)

Lemma emptying_modifies s i cart :
  findCartForUser (Cart.email cart) s = Some (i, cart) ->
  Cart.cartItems cart <> [] ->
  forall uid balance,
    carts (debited uid balance s) !! i <> Some (Cart.set_cartItems [] cart).
Proof.
  intros [Hi _]%findCart_lookup Hitems uid balance. simpl. rewrite Hi.
  intros [= Heq]. apply Hitems. by rewrite Heq.
Qed.

Lemma found_email email s i cart :
  findCartForUser email s = Some (i, cart) ->
  findCartForUser (Cart.email cart) s = Some (i, cart).
Proof. intros H. by rewrite (proj2 (findCart_lookup _ _ _ _ H)). Qed.


Lemma User_save_missing user w :
  users (db w) !! user.1 = None ->
  exists w', User_save user w = (Rejected MongoError, w').
Proof.
  intros Hnone. unfold User_save, write. rewrite Hnone.
  destruct (writes w) as [|[] ?]; eauto.
Qed.

(** The success path, from the outcome alone: a checkout that resolves ran
    on a cart with items and an address set, the balance it leaves is the
    old one less the total of the cart and is not negative, and the store
    is the old one with that balance written and that cart emptied. *)
Lemma checkout_resolved impl cfg uid user w w' :
  checkout impl cfg (uid, user) w = (Resolved tt, w') ->
  exists i cart,
    findCartForUser (User.email user) (db w) = Some (i, cart) /\
    Cart.cartItems cart <> [] /\
    User.address user <> default_address cfg /\
    0 <= User.walletMoney user - cartTotal (Cart.cartItems cart) /\
    db w' = emptied i cart
              (debited uid (User.walletMoney user - cartTotal (Cart.cartItems cart)) (db w)).
Proof.
  intros Hrun.
  destruct (findCartForUser (User.email user) (db w)) as [[i cart]|] eqn:Hcart.
  2: { destruct (checkout_no_cart impl cfg (uid, user) w Hcart) as [? Hno].
       congruence. }
  destruct (decide (Cart.cartItems cart = [])) as [Hnil|Hitems].
  { destruct (checkout_empty_cart impl cfg (uid, user) w i cart Hcart Hnil) as [? Hno].
    congruence. }
  destruct (decide (User.address user = default_address cfg)) as [Hdef|Haddr].
  { rewrite (checkout_default_address impl cfg (uid, user) w i cart) in Hrun by done.
    destruct impl; discriminate. }
  rewrite (checkout_validated impl cfg (uid, user) w i cart) in Hrun by done.
  cbn zeta in Hrun; cbn [fst snd] in Hrun.
  destruct (Z.gtb_spec (cartTotal (Cart.cartItems cart)) (User.walletMoney user))
    as [Hgt|Hle]; [destruct impl; discriminate|].
  exists i, cart. split_and!; [done | done | done | lia |].
  unfold await in Hrun.
  destruct (users (db w) !! uid) as [stored|] eqn:Hstored.
  2: { destruct (User_save_missing
                   (uid, User.set_walletMoney
                           (User.walletMoney user - cartTotal (Cart.cartItems cart)) user)
                   w Hstored) as [w1 Hno].
       rewrite Hno in Hrun. discriminate. }
  destruct (nextWriteAccepted_cases w) as [Hacc|Hrej].
  2: { rewrite User_save_rejected in Hrun by done. discriminate. }
  erewrite User_save_accepted in Hrun by done.
  pose proof (emptying_modifies (db w) i cart (found_email _ _ _ _ Hcart) Hitems uid
                (User.walletMoney user - cartTotal (Cart.cartItems cart))) as Hmod.
  match type of Hrun with Cart_save _ ?w1 = _ =>
    destruct (nextWriteAccepted_cases w1) as [Hacc'|Hrej'] end.
  2: { rewrite Cart_save_rejected in Hrun by done. discriminate. }
  rewrite Cart_save_accepted in Hrun by done. by injection Hrun as <-.
Qed.




(** C5.  With the default address still set and a cart whose total exceeds
    the wallet (a wallet that, as the data model has it, is not negative),
    checkout rejects with the error of the address, not with the error of
    the balance, and writes nothing. *)
Theorem checkout_address_before_balance impl cfg user w i cart :
  findCartForUser (User.email user.2) (db w) = Some (i, cart) ->
  User.address user.2 = default_address cfg ->
  cartTotal (Cart.cartItems cart) > User.walletMoney user.2 ->
  0 <= User.walletMoney user.2 ->
  checkout impl cfg user w = (Rejected (AddressNotSet impl), w) /\
  AddressNotSet impl <> InsufficientBalance impl.
Proof.
  intros Hcart Haddr Htotal Hwallet. split.
  - apply (checkout_default_address impl cfg user w i cart); [done | | done].
    intros Hnil. rewrite Hnil in Htotal. simpl in Htotal. lia.
  - by destruct impl.
Qed.

Lemma checkout_address_before_balance_witness :
  checkout services_cart_service Shop.cfg (1%nat, Shop.bob) (Shop.world Shop.store [])
  = (Rejected (ApiError BAD_REQUEST " Address unavailable"), Shop.world Shop.store []).
Proof.
  apply (checkout_address_before_balance services_cart_service Shop.cfg
           (1%nat, Shop.bob) (Shop.world Shop.store []) 0
           (Shop.cartOf Shop.bob [Shop.line Shop.widget 1; Shop.line Shop.widget 2])).
  - reflexivity.
  - reflexivity.
  - reflexivity.
  - vm_compute. discriminate.
Defined.

(** ** Settlement over binary64 *)

Section Settlement.
Import Binary64.
Local Open Scope binary64_scope.

Lemma digits2_pos_bounds m :
  2 ^ (Zpos (digits2_pos m) - 1) <= Zpos m < 2 ^ Zpos (digits2_pos m).
Proof.
  induction m as [p IH|p IH|]; simpl digits2_pos.
  - rewrite Pos2Z.inj_succ. change (Zpos p~1) with (2 * Zpos p + 1).
    replace (Z.succ (Zpos (digits2_pos p)) - 1) with (Z.succ (Zpos (digits2_pos p) - 1)) by lia.
    rewrite !Z.pow_succ_r by lia.
    destruct IH as [Hlow Hhigh]; revert Hlow Hhigh.
    generalize (2 ^ (Zpos (digits2_pos p) - 1)) (2 ^ Zpos (digits2_pos p)). lia.
  - rewrite Pos2Z.inj_succ. change (Zpos p~0) with (2 * Zpos p).
    replace (Z.succ (Zpos (digits2_pos p)) - 1) with (Z.succ (Zpos (digits2_pos p) - 1)) by lia.
    rewrite !Z.pow_succ_r by lia.
    destruct IH as [Hlow Hhigh]; revert Hlow Hhigh.
    generalize (2 ^ (Zpos (digits2_pos p) - 1)) (2 ^ Zpos (digits2_pos p)). lia.
  - simpl. lia.
Qed.

(** A number of binary64 has at most 53 digits, and exactly 53 unless its
    exponent is the least one. *)
Lemma bounded_digits m e :
  bounded prec emax m e = true ->
  Zpos (digits2_pos m) <= prec /\ emin prec emax <= e /\
  (emin prec emax < e -> Zpos (digits2_pos m) = prec).
Proof.
  unfold bounded, canonical_mantissa, fexp.
  intros [Hc _]%andb_prop. apply Z.eqb_eq in Hc.
  unfold prec, emax in *. unfold emin in *. lia.
Qed.

Lemma shl_align_fst m e ez :
  ez <= e -> Zpos (fst (shl_align m e ez)) = Zpos m * 2 ^ (e - ez).
Proof.
  intros Hle. unfold shl_align. destruct (ez - e) as [|d|d] eqn:Hd; simpl fst.
  - replace (e - ez) with 0 by lia. simpl. lia.
  - lia.
  - replace (e - ez) with (Zpos d) by lia. clear Hd Hle.
    induction d as [|d IH] using Pos.peano_ind.
    + simpl. lia.
    + rewrite Pos.iter_succ, Pos2Z.inj_succ, Z.pow_succ_r by lia.
      change (Zpos (Pos.iter xO m d)~0) with (2 * Zpos (Pos.iter xO m d)). rewrite IH. lia.
Qed.

Lemma lower_exponent_smaller m1 e1 m2 e2 :
  bounded prec emax m1 e1 = true -> bounded prec emax m2 e2 = true -> e1 < e2 ->
  Zpos m1 < Zpos m2 * 2 ^ (e2 - e1).
Proof.
  intros (Hd1 & Hmin1 & _)%bounded_digits (_ & _ & Hd2)%bounded_digits Hlt.
  specialize (Hd2 ltac:(lia)).
  pose proof (digits2_pos_bounds m1) as [_ Hm1].
  pose proof (digits2_pos_bounds m2) as [Hm2 _]. rewrite Hd2 in Hm2.
  assert (2 ^ Zpos (digits2_pos m1) <= 2 ^ prec) as Hp
    by (apply Z.pow_le_mono_r; lia).
  assert (2 ^ prec = 2 ^ (prec - 1) * 2) as Hprec by reflexivity.
  assert (2 ^ 1 <= 2 ^ (e2 - e1)) as Hk by (apply Z.pow_le_mono_r; lia).
  change (2 ^ 1) with 2 in Hk.
  assert (0 <= 2 ^ (prec - 1)) as Hpos by (by apply Z.pow_nonneg).
  assert (2 ^ (prec - 1) * 2 <= Zpos m2 * 2 ^ (e2 - e1)) as Hmul
    by (apply Z.mul_le_mono_nonneg; [exact Hpos | exact Hm2 | lia | exact Hk]).
  rewrite <- Hprec in Hmul. revert Hm1 Hp Hmul.
  generalize (2 ^ Zpos (digits2_pos m1)) (2 ^ prec) (Zpos m2 * 2 ^ (e2 - e1)). lia.
Qed.

(** The integers that [x - y] subtracts, once the mantissas are aligned,
    are ordered as the numbers are. *)
Lemma ordered_difference sx mx ex sy my ey :
  bounded prec emax mx ex = true -> bounded prec emax my ey = true ->
  SFleb (S754_finite sy my ey) (S754_finite sx mx ex) = true ->
  0 <= cond_Zopp sx (Zpos (fst (shl_align mx ex (Z.min ex ey))))
       - cond_Zopp sy (Zpos (fst (shl_align my ey (Z.min ex ey)))).
Proof.
  intros Hx Hy Hle. rewrite !shl_align_fst by lia.
  unfold SFleb, SFcompare in Hle.
  change (Pos.compare_cont Eq my mx) with (Pos.compare my mx) in Hle.
  assert (0 < Zpos mx * 2 ^ (ex - Z.min ex ey)) as Hpx
    by (apply Z.mul_pos_pos; [lia | apply Z.pow_pos_nonneg; lia]).
  assert (0 < Zpos my * 2 ^ (ey - Z.min ex ey)) as Hpy
    by (apply Z.mul_pos_pos; [lia | apply Z.pow_pos_nonneg; lia]).
  destruct (Z.compare_spec ey ex) as [Heq|Hlt|Hgt].
  - subst ey. rewrite Z.min_id, Z.sub_diag in *. change (2 ^ 0) with 1 in *.
    destruct (Pos.compare_spec my mx), sy, sx; simpl in *; try discriminate; lia.
  - pose proof (lower_exponent_smaller my ey mx ex Hy Hx Hlt) as Hlow.
    revert Hpx Hpy. replace (Z.min ex ey) with ey by lia. rewrite Z.sub_diag.
    change (2 ^ 0) with 1. revert Hlow. generalize (Zpos mx * 2 ^ (ex - ey)).
    destruct sy, sx; simpl in *; try discriminate; lia.
  - pose proof (lower_exponent_smaller mx ex my ey Hx Hy ltac:(lia)) as Hlow.
    revert Hpx Hpy. replace (Z.min ex ey) with ex by lia. rewrite Z.sub_diag.
    change (2 ^ 0) with 1. revert Hlow. generalize (Zpos my * 2 ^ (ey - ex)).
    destruct sy, sx; simpl in *; try discriminate; lia.
Qed.

Lemma binary_round_aux_not_negative mx ex lx :
  SFltb (binary_round_aux prec emax false mx ex lx) zero = false.
Proof.
  unfold binary_round_aux.
  destruct (shr_fexp prec emax mx ex lx) as [mrs e'].
  destruct (shr_fexp prec emax _ e' loc_Exact) as [mrs' e''].
  destruct (shr_m mrs'); [reflexivity | by destruct (_ <=? _) | reflexivity].
Qed.

Lemma normalize_not_negative d e :
  0 <= d -> SFltb (binary_normalize prec emax d e false) zero = false.
Proof.
  intros Hd. destruct d as [|m|m]; [reflexivity | | lia].
  unfold binary_normalize, binary_round.
  destruct (shl_align m e _) as [mz ez]. apply binary_round_aux_not_negative.
Qed.

(** [w - t < 0] is false when [t <= w]: rounding does not change the sign
    of a difference. *)
Lemma minus_not_negative w t :
  valid w = true -> valid t = true -> SFleb t w = true -> less (minus w t) zero = false.
Proof.
  intros Hw Ht Hle. destruct w as [sw|sw| |sw mw ew], t as [st|st| |st mt et];
    try (repeat match goal with s : bool |- _ => destruct s end;
         (reflexivity || discriminate)).
  apply normalize_not_negative. by apply ordered_difference.
Qed.

Lemma SFcompare_antisym t w : SFcompare w t = CompOpp <$> SFcompare t w.
Proof.
  destruct t as [st|st| |st mt et], w as [sw|sw| |sw mw ew];
    try (repeat match goal with s : bool |- _ => destruct s end; reflexivity).
  unfold SFcompare.
  change (Pos.compare_cont Eq mw mt) with (Pos.compare mw mt).
  change (Pos.compare_cont Eq mt mw) with (Pos.compare mt mw).
  rewrite (Z.compare_antisym et ew), (Pos.compare_antisym mt mw).
  by destruct st, sw, (et ?= ew), (Pos.compare mt mw).
Qed.

(** [t <= w] excludes [t > w]. *)
Lemma leb_not_greater t w : SFleb t w = true -> greater t w = false.
Proof.
  unfold greater, SFleb, SFltb. rewrite (SFcompare_antisym t w).
  by destruct (SFcompare t w) as [[]|].
Qed.

(** The difference of two equal numbers is a zero. *)
Lemma minus_equal_zero w t :
  SFeqb t w = true -> finite w = true -> exists s, minus w t = S754_zero s.
Proof.
  unfold SFeqb. intros Heq Hfin.
  destruct w as [sw|sw| |sw mw ew], t as [st|st| |st mt et];
    try (repeat match goal with s : bool |- _ => destruct s end;
         (discriminate || (eexists; reflexivity))).
  assert (st = sw /\ et = ew /\ mt = mw) as (-> & -> & ->).
  { unfold SFcompare in Heq.
    change (Pos.compare_cont Eq mt mw) with (Pos.compare mt mw) in Heq.
    destruct (Z.compare_spec et ew), (Pos.compare_spec mt mw), st, sw;
      simpl in Heq; try discriminate; done. }
  exists false. unfold minus, SFsub. by rewrite Z.sub_diag.
Qed.

Lemma eqb_leb t w : SFeqb t w = true -> SFleb t w = true.
Proof. unfold SFeqb, SFleb. by destruct (SFcompare t w) as [[]|]. Qed.

Lemma times_comm x y : times x y = times y x.
Proof.
  destruct x as [sx|sx| |sx mx ex], y as [sy|sy| |sy my ey]; simpl;
    rewrite ?(xorb_comm sx sy); try reflexivity.
  by rewrite Pos.mul_comm, Z.add_comm.
Qed.

(** With the wallet covering the total, neither copy finds the balance
    insufficient. *)
Lemma covered_sufficient impl wallet total :
  valid wallet = true -> valid total = true -> SFleb total wallet = true ->
  insufficient impl wallet total = false.
Proof.
  intros Hw Ht Hle. destruct impl; simpl.
  - by apply minus_not_negative.
  - by apply leb_not_greater.
Qed.

(** The test of the balance is strict: a copy finds the balance
    insufficient only when the wallet is strictly below the total. *)
Lemma insufficient_only_above impl wallet total :
  valid wallet = true -> valid total = true ->
  insufficient impl wallet total = true -> SFltb wallet total = true.
Proof.
  intros Hw Ht. destruct impl; cbn [insufficient]; [|done].
  intros Hless. destruct (SFltb wallet total) eqn:Hlt; [done|]. exfalso.
  destruct (SFleb total wallet) eqn:Hle.
  - by rewrite minus_not_negative in Hless.
  - unfold SFltb, SFleb in Hlt, Hle. rewrite (SFcompare_antisym total wallet) in Hlt.
    destruct (SFcompare total wallet) as [[]|] eqn:Hcmp; try discriminate.
    destruct wallet as [sw|sw| |sw mw ew], total as [st|st| |st mt et];
      try discriminate;
      repeat match goal with s : bool |- _ => destruct s end; discriminate.
Qed.

Lemma settlement_lookup email s i cart :
  findCartForUser email s = Some (i, cart) ->
  carts s !! i = Some cart /\ Cart.email cart = email.
Proof. intros (? & ? & _)%list_find_Some. done. Qed.

(** A checkout that passed the checks of the cart and of the address. *)
Lemma settlement_checked impl cfg user w i cart :
  findCartForUser (User.email user.2) (db w) = Some (i, cart) ->
  Cart.cartItems cart <> [] ->
  User.address user.2 <> default_address cfg ->
  checkout impl cfg user w =
    let total := computedTotal impl (Cart.cartItems cart) in
    if insufficient impl (User.walletMoney user.2) total
    then (Rejected (InsufficientBalance impl), w)
    else (User_save (user.1, User.set_walletMoney
                               (minus (User.walletMoney user.2) total) user.2) ;;;
          Cart_save (i, Cart.set_cartItems [] cart)) w.
Proof.
  intros Hcart Hitems Haddr.
  assert ((length (Cart.cartItems cart) =? 0)%nat = false) as Hlen.
  { apply not_true_is_false. by rewrite length_zero_nil. }
  apply String.eqb_neq in Haddr.
  destruct impl; simpl;
    unfold Services.checkout, Services.getCartByUser, Part001.checkout;
    cbv beta iota zeta delta [await resolve throw Cart_findOne hasSetNonDefaultAddress];
    rewrite Hcart; cbn [fst snd]; rewrite Hlen, Haddr; cbn [negb].
  - by destruct (less _ zero).
  - by destruct (greater _ _).
Qed.

Lemma settlement_both_writes uid user balance i cart w stored :
  users (db w) !! uid = Some stored ->
  carts (db w) !! i = Some cart ->
  Cart.cartItems cart <> [] ->
  writesAccepted w ->
  (User_save (uid, User.set_walletMoney balance user) ;;;
   Cart_save (i, Cart.set_cartItems [] cart)) w
  = (Resolved tt, {| db := settled uid balance i cart (db w);
                     writes := tail (tail (writes w)) |}).
Proof.
  intros Hstored Hcart Hitems Hacc. unfold await, User_save, Cart_save, write.
  cbn [fst snd]. rewrite Hstored.
  assert (match writes w with [] => true | b :: _ => b end = true) as ->.
  { unfold writesAccepted in Hacc. destruct (writes w) as [|b ?]; [done|].
    by apply Forall_cons_1 in Hacc as [-> _]. }
  cbn [db writes carts]. rewrite decide_False.
  2: { rewrite Hcart. intros [= Heq]. apply Hitems. by rewrite Heq. }
  assert (match tail (writes w) with [] => true | b :: _ => b end = true) as ->.
  { unfold writesAccepted in Hacc. destruct (writes w) as [|b [|b' ?]]; [done..|].
    apply Forall_cons_1 in Hacc as [_ Hacc]. by apply Forall_cons_1 in Hacc as [-> _]. }
  reflexivity.
Qed.

Lemma settled_frame uid balance i cart s user email :
  users s !! uid = Some user ->
  findCartForUser email s = Some (i, cart) ->
  let s' := settled uid balance i cart s in
  findCartForUser email s' = Some (i, Cart.set_cartItems [] cart) /\
  userItems email s' = [] /\
  users s' !! uid = Some (User.set_walletMoney balance user) /\
  (forall j, j <> uid -> users s' !! j = users s !! j) /\
  (forall k, k <> i -> carts s' !! k = carts s !! k) /\
  products s' = products s.
Proof.
  intros Huser Hcart s'.
  assert (findCartForUser email s' = Some (i, Cart.set_cartItems [] cart)) as Hfind.
  { apply list_find_Some in Hcart as (Hi & Hemail & Hleast).
    apply list_find_Some. simpl. split_and!.
    - apply list_lookup_insert_eq. by eapply lookup_lt_Some.
    - done.
    - intros j y Hj Hlt. rewrite list_lookup_insert_ne in Hj by lia. eauto. }
  split_and!.
  - done.
  - unfold userItems. by rewrite Hfind.
  - simpl. by rewrite list_lookup_alter_eq, Huser.
  - intros j Hj. simpl. by rewrite list_lookup_alter_ne.
  - intros k Hk. simpl. by rewrite list_lookup_insert_ne.
  - done.
Qed.

(** Against C1 as stated.  A wallet of [2^54] and a cart of one item of
    cost 1 and quantity 1: the wallet covers the total, checkout resolves
    and empties the cart, and the balance it stores is [2^54], the old
    one: [2^54 - 1] is not a number of binary64 and the difference is
    rounded.  The balance has not decreased by the total. *)
Lemma checkout_rounds_balance :
  let wallet := 2 ^ 54 in
  let w := till wallet [line "widget" 1 1] in
  (let out := checkout services_cart_service Shop.cfg (customer wallet) w in
   toZ (computedTotal services_cart_service [line "widget" 1 1]) = Some 1 /\
   out.1 = Resolved tt /\
   userItems "alice@example.com" (db out.2) = [] /\
   (toZ ∘ User.walletMoney <$> users (db out.2) !! 0%nat) = Some (Some wallet)) /\
  (let out := checkout unnamed_part_001 Shop.cfg (customer wallet) w in
   toZ (computedTotal unnamed_part_001 [line "widget" 1 1]) = Some 1 /\
   out.1 = Resolved tt /\
   userItems "alice@example.com" (db out.2) = [] /\
   (toZ ∘ User.walletMoney <$> users (db out.2) !! 0%nat) = Some (Some wallet)) /\
  wallet <> wallet - 1 * 1.
Proof. vm_compute. repeat split. discriminate. Qed.

(** C1, as the code has it.  A user of the store whose cart has items,
    whose address is not the default one and whose wallet is at least the
    total that the copy computes checks out successfully when the storage
    accepts the writes.  Afterwards the user's cart is the same cart with
    no items, the user's record is the same record with, as [walletMoney],
    the binary64 difference of the old balance and of the computed total
    (the total being the binary64 sum, from [0] and in the order of the
    cart, of the binary64 products of the items), this balance is not
    below zero, and no other user record, no other cart and no product
    has changed. *)
Theorem checkout_settles impl cfg w uid user i cart :
  users (db w) !! uid = Some user ->
  findCartForUser (User.email user) (db w) = Some (i, cart) ->
  Cart.cartItems cart <> [] ->
  User.address user <> default_address cfg ->
  let total := computedTotal impl (Cart.cartItems cart) in
  let balance := minus (User.walletMoney user) total in
  valid (User.walletMoney user) = true ->
  valid total = true ->
  SFleb total (User.walletMoney user) = true ->
  writesAccepted w ->
  exists s',
    checkout impl cfg (uid, user) w
      = (Resolved tt, {| db := s'; writes := tail (tail (writes w)) |}) /\
    findCartForUser (User.email user) s' = Some (i, Cart.set_cartItems [] cart) /\
    userItems (User.email user) s' = [] /\
    users s' !! uid = Some (User.set_walletMoney balance user) /\
    less balance zero = false /\
    (forall j, j <> uid -> users s' !! j = users (db w) !! j) /\
    (forall k, k <> i -> carts s' !! k = carts (db w) !! k) /\
    products s' = products (db w).
Proof.
  intros Huser Hcart Hitems Haddr total balance Hvalid Hvalid' Hle Hacc.
  exists (settled uid balance i cart (db w)).
  destruct (settled_frame uid balance i cart (db w) user (User.email user) Huser Hcart)
    as (Hfind & Hempty & Hu & Hothers & Hcarts & Hproducts).
  split_and!; try done.
  - rewrite (settlement_checked impl cfg (uid, user) w i cart) by done.
    cbn zeta; cbn [fst snd]. fold total.
    rewrite covered_sufficient by done.
    apply (settlement_both_writes uid user balance i cart w user); try done.
    by apply settlement_lookup in Hcart as [? _].
  - by apply minus_not_negative.
Qed.

Lemma checkout_settles_witness :
  exists s',
    checkout services_cart_service Shop.cfg (customer 30)
      (till 30 [line "widget" 10 2; line "gadget" 5 1])
      = (Resolved tt, {| db := s'; writes := [] |}) /\
    userItems "alice@example.com" s' = [] /\
    (toZ ∘ User.walletMoney <$> users s' !! 0%nat) = Some (Some 5).
Proof.
  destruct (checkout_settles services_cart_service Shop.cfg
              (till 30 [line "widget" 10 2; line "gadget" 5 1]) 0 (customer 30).2 0
              {| Cart.email := "alice@example.com";
                 Cart.cartItems := [line "widget" 10 2; line "gadget" 5 1];
                 Cart.paymentOption := "PAYMENT_OPTION_DEFAULT" |})
    as (s' & Hrun & _ & Hitems & Huser & _).
  - reflexivity.
  - reflexivity.
  - discriminate.
  - discriminate.
  - reflexivity.
  - reflexivity.
  - reflexivity.
  - constructor.
  - exists s'. split_and!; [exact Hrun | exact Hitems | by rewrite Huser].
Defined.

(** C9.  When the total that the copy computes equals the wallet balance
    (a number that is neither [NaN] nor infinite; the cart has items, the
    address is not the default one, the storage accepts the writes),
    checkout succeeds and leaves a [walletMoney] that is a zero: the
    balance check rejects only a total strictly above the balance. *)
Theorem checkout_exact_balance impl cfg w uid user i cart :
  users (db w) !! uid = Some user ->
  findCartForUser (User.email user) (db w) = Some (i, cart) ->
  Cart.cartItems cart <> [] ->
  User.address user <> default_address cfg ->
  finite (User.walletMoney user) = true ->
  SFeqb (computedTotal impl (Cart.cartItems cart)) (User.walletMoney user) = true ->
  writesAccepted w ->
  exists s' sign,
    checkout impl cfg (uid, user) w
      = (Resolved tt, {| db := s'; writes := tail (tail (writes w)) |}) /\
    users s' !! uid = Some (User.set_walletMoney (S754_zero sign) user) /\
    toZ (S754_zero sign) = Some 0 /\
    userItems (User.email user) s' = [].
Proof.
  intros Huser Hcart Hitems Haddr Hfinite Heq Hacc.
  destruct (minus_equal_zero _ _ Heq Hfinite) as [sign Hzero].
  exists (settled uid (S754_zero sign) i cart (db w)), sign.
  destruct (settled_frame uid (S754_zero sign) i cart (db w) user (User.email user)
              Huser Hcart) as (_ & Hempty & Hu & _).
  split_and!; try done.
  rewrite (settlement_checked impl cfg (uid, user) w i cart) by done.
  cbn zeta; cbn [fst snd]. rewrite Hzero.
  assert (insufficient impl (User.walletMoney user)
            (computedTotal impl (Cart.cartItems cart)) = false) as ->.
  { destruct impl; cbn [insufficient].
    - by rewrite Hzero.
    - by apply leb_not_greater, eqb_leb. }
  apply (settlement_both_writes uid user (S754_zero sign) i cart w user); try done.
  by apply settlement_lookup in Hcart as [? _].
Qed.

Lemma checkout_exact_balance_witness :
  exists s' sign,
    checkout unnamed_part_001 Shop.cfg (customer 25)
      (till 25 [line "widget" 10 2; line "gadget" 5 1])
      = (Resolved tt, {| db := s'; writes := [] |}) /\
    (User.walletMoney <$> users s' !! 0%nat) = Some (S754_zero sign).
Proof.
  destruct (checkout_exact_balance unnamed_part_001 Shop.cfg
              (till 25 [line "widget" 10 2; line "gadget" 5 1]) 0 (customer 25).2 0
              {| Cart.email := "alice@example.com";
                 Cart.cartItems := [line "widget" 10 2; line "gadget" 5 1];
                 Cart.paymentOption := "PAYMENT_OPTION_DEFAULT" |})
    as (s' & sign & Hrun & Huser & _).
  - reflexivity.
  - reflexivity.
  - discriminate.
  - discriminate.
  - reflexivity.
  - reflexivity.
  - constructor.
  - exists s', sign. split; [exact Hrun | by rewrite Huser].
Defined.

(** The sum is rounded at every step: with lines of [2^53], 1 and 1 the
    total is [2^53], and a wallet of [2^53 + 2] is left with 2. *)
Example total_rounds_at_every_step :
  forall impl,
    let items := [line "widget" (2 ^ 53) 1; line "gadget" 1 1; line "gizmo" 1 1] in
    let out := checkout impl Shop.cfg (customer (2 ^ 53 + 2)) (till (2 ^ 53 + 2) items) in
    toZ (computedTotal impl items) = Some (2 ^ 53) /\
    out.1 = Resolved tt /\
    (toZ ∘ User.walletMoney <$> users (db out.2) !! 0%nat) = Some (Some 2).
Proof. intros []; vm_compute; repeat split. Qed.

End Settlement.

(** ** Adding an item *)



(** ** The steps of a request *)

Lemma await_resolve_world {A B} (m : Promise A) (b : B) w :
  (await m (fun _ => resolve b) w).2 = (m w).2.
Proof. unfold await, resolve. by destruct (m w) as [[a|e] w']. Qed.

Lemma findById_id productId s product :
  findById productId s = Some product -> Product._id product = productId.
Proof.
  unfold findById. intros ([n p] & Hfind & Heq)%fmap_Some. simpl in Heq. subst.
  by apply list_find_Some in Hfind as (_ & ? & _).
Qed.

Lemma set_cartItems_same cart : Cart.set_cartItems (Cart.cartItems cart) cart = cart.
Proof. by destruct cart. Qed.

Lemma productIds_set_quantity quantity n items :
  productIds (alter (CartItem.set_quantity quantity) n items) = productIds items.
Proof.
  unfold productIds.
  change (map productIdOf) with (fmap (M:=list) productIdOf).
  rewrite (list_fmap_alter productIdOf (CartItem.set_quantity quantity) id).
  - by apply list_alter_id.
  - by apply Forall_true.
Qed.

Lemma itemsStep_NoDup old new :
  itemsStep old new -> NoDup (productIds old) -> NoDup (productIds new).
Proof.
  intros [|product quantity Hfresh|quantity n|n] Hold.
  - done.
  - unfold productIds in *. rewrite map_app. simpl.
    apply NoDup_app. split_and!; [done | | apply NoDup_singleton].
    intros x Hx ->%list_elem_of_singleton. exact (Hfresh Hx).
  - by rewrite productIds_set_quantity.
  - unfold productIds in *. change (map productIdOf (delete n old))
      with (productIdOf <$> delete n old). rewrite list_fmap_delete.
    eapply sublist_NoDup; [done | apply sublist_delete].
Qed.

(** ** Updating and removing an item *)

Lemma save_and_return_resolves cart w :
  nextWriteAccepted w ->
  exists w',
    (Cart_save cart ;;; resolve cart) w = (Resolved cart, w') /\
    db w' = withCart cart.1 cart.2 (db w) /\
    (writesAccepted w -> writesAccepted w').
Proof.
  intros Hacc. unfold await.
  destruct (decide (carts (db w) !! cart.1 = Some cart.2)) as [Hsame|Hmod].
  - exists w. rewrite Cart_save_unmodified by done.
    split_and!; [done | by rewrite withCart_stored | done].
  - eexists. rewrite Cart_save_accepted by done.
    split_and!; [done | done | apply writesAccepted_tail].
Qed.

Lemma alter_at {A} (f : A -> A) (l : list A) n x :
  l !! n = Some x -> alter f n l = <[n := f x]> l.
Proof.
  intros Hn. rewrite list_insert_alter. apply list_alter_ext; [|done].
  intros y Hy. congruence.
Qed.

Lemma updateItem_present impl user productId quantity w i cart product :
  findCartForUser (User.email user.2) (db w) = Some (i, cart) ->
  findById productId (db w) = Some product ->
  productId ∈ productIds (Cart.cartItems cart) ->
  exists n item,
    Cart.cartItems cart !! n = Some item /\ productIdOf item = productId /\
    let cart' :=
      (i, Cart.set_cartItems
            (<[n := CartItem.set_quantity quantity item]> (Cart.cartItems cart)) cart) in
    updateItem impl user productId quantity w = (Cart_save cart' ;;; resolve cart') w.
Proof.
  intros Hcart Hprod Hin. destruct impl; simpl.
  - destruct (lastMatch_exists _ _ Hin) as [n Hlast].
    pose proof Hlast as [(item & Hitem & Hid) _]. exists n, item. split_and!; [done..|].
    rewrite (Services_update_last user productId quantity w i cart product n) by done.
    cbn zeta. by rewrite (alter_at _ _ _ _ Hitem).
  - destruct (firstMatch_exists _ _ Hin) as [n Hfirst].
    pose proof Hfirst as [(item & Hitem & Hid) _]. exists n, item. split_and!; [done..|].
    rewrite (Part001_update_first user productId quantity w i cart product n) by done.
    cbn zeta. by rewrite (alter_at _ _ _ _ Hitem).
Qed.




(** [services/cart.service.js] removes exactly one item of the product
    (the others keep their order) when the cart holds one, and rejects
    with "Product not in cart", writing nothing, when it holds none.  The
    catalogue is not consulted. *)
Lemma Services_remove_one user productId w i cart :
  findCartForUser (User.email user.2) (db w) = Some (i, cart) ->
  (productId ∈ productIds (Cart.cartItems cart) -> nextWriteAccepted w ->
   exists n item w',
     Cart.cartItems cart !! n = Some item /\ productIdOf item = productId /\
     removeItem services_cart_service user productId w = (Resolved tt, w') /\
     userItems (User.email user.2) (db w')
       = (take n (Cart.cartItems cart) ++ drop (S n) (Cart.cartItems cart))%list) /\
  (productId ∉ productIds (Cart.cartItems cart) ->
   removeItem services_cart_service user productId w = (Rejected ProductNotInCart, w)).
Proof.
  intros Hcart. split.
  - intros Hin Hacc. destruct (lastMatch_exists _ _ Hin) as [n Hlast].
    pose proof Hlast as [(item & Hitem & Hid) _]. exists n, item. simpl.
    rewrite (Services_delete_last user productId w i cart n) by done.
    destruct (Cart_save_resolves
                (i, Cart.set_cartItems (delete n (Cart.cartItems cart)) cart) w Hacc)
      as (w' & -> & Hdb).
    exists w'. split_and!; [done | done | done |]. rewrite Hdb.
    erewrite userItems_found
      by (apply (findCart_withCart _ _ _ cart);
          [done | by apply findCart_lookup in Hcart as [_ ?]]).
    simpl. apply delete_take_drop.
  - intros Habs. by eapply removeItem_absent.
Qed.

(** The second copy resolves without removing anything and without a
    write: its [$pull] names a path that is not the array of the cart. *)
Lemma Part001_remove_nothing user productId w i cart :
  findCartForUser (User.email user.2) (db w) = Some (i, cart) ->
  productId ∈ productIds (Cart.cartItems cart) ->
  removeItem unnamed_part_001 user productId w = (Resolved tt, w).
Proof. intros Hcart Hin. by apply (Part001_delete_present user productId w i cart). Qed.

(** C7, at an input where the second copy departs from it.  Carol's cart
    holds a widget line and a gadget line; [removeItem] of the gadget in
    the second copy resolves, and the store is the one it started from:
    the gadget line is still in the cart. *)
Theorem Part001_remove_keeps_item :
  let out := removeItem unnamed_part_001 (2%nat, Shop.carol) "gadget"
               (Shop.world Shop.store []) in
  out.1 = Resolved tt /\
  db out.2 = Shop.store /\
  userItems "carol@example.com" (db out.2) = Shop.basket /\
  countOf "gadget" (userItems "carol@example.com" (db out.2)) = 1%nat.
Proof. vm_compute. repeat split. Qed.

(** The same request in [services/cart.service.js] removes the line. *)
Example Services_remove_scenario :
  let out := removeItem services_cart_service (2%nat, Shop.carol) "gadget"
               (Shop.world Shop.store []) in
  out.1 = Resolved tt /\
  userItems "carol@example.com" (db out.2) = [Shop.line Shop.widget 2].
Proof. vm_compute. repeat split. Qed.

(** ** Carts that hold a product twice *)

(** Against C8 as stated.  Bob's cart holds two widget lines, of
    quantities 1 and 2.  In
    [services/cart.service.js] an update to 9 leaves the first line at 1
    and puts 9 in the second, and a removal keeps the first line and
    removes the second: neither acts on the first match. *)
Lemma Services_acts_on_last_match :
  let bobs := [Shop.line Shop.widget 1; Shop.line Shop.widget 2] in
  let updated := userItems "bob@example.com"
                   (db (updateItem services_cart_service (1%nat, Shop.bob) "widget" 9
                          (Shop.world Shop.store [])).2) in
  let removed := userItems "bob@example.com"
                   (db (removeItem services_cart_service (1%nat, Shop.bob) "widget"
                          (Shop.world Shop.store [])).2) in
  firstMatch "widget" bobs 0%nat /\
  updated = [Shop.line Shop.widget 1; Shop.line Shop.widget 9] /\
  updated <> alter (CartItem.set_quantity 9) 0%nat bobs /\
  removed = [Shop.line Shop.widget 1] /\
  removed <> delete 0%nat bobs.
Proof.
  cbn zeta. split_and!.
  - split; [by exists (Shop.line Shop.widget 1) | intros m item Hlt; lia].
  - reflexivity.
  - vm_compute. discriminate.
  - reflexivity.
  - vm_compute. discriminate.
Qed.

(** C8, as the code has it.  In a cart that holds items of a product (two
    or more, or one), with the write accepted:
    [services/cart.service.js] gives the new quantity to the last such item
    only (the product being in the catalogue) and removes the last such
    item only (whether or not the catalogue has the product); the second
    copy gives the new quantity to the first such item only (the product
    being in the catalogue).  In an update every other item keeps its
    place and its quantity; in a removal the other items keep their
    order. *)
Theorem duplicates_last_or_first user productId quantity w i cart n item :
  findCartForUser (User.email user.2) (db w) = Some (i, cart) ->
  nextWriteAccepted w ->
  Cart.cartItems cart !! n = Some item ->
  let updated :=
    <[n := {| CartItem.product := CartItem.product item; CartItem.quantity := quantity |}]>
      (Cart.cartItems cart) in
  let removed := (take n (Cart.cartItems cart) ++ drop (S n) (Cart.cartItems cart))%list in
  (lastMatch productId (Cart.cartItems cart) n ->
   (forall product, findById productId (db w) = Some product ->
      exists cart' w',
        updateItem services_cart_service user productId quantity w
          = (Resolved (i, cart'), w') /\
        Cart.cartItems cart' = updated /\
        userItems (User.email user.2) (db w') = updated) /\
   (exists w',
      removeItem services_cart_service user productId w = (Resolved tt, w') /\
      userItems (User.email user.2) (db w') = removed)) /\
  (firstMatch productId (Cart.cartItems cart) n ->
   forall product, findById productId (db w) = Some product ->
     exists cart' w',
       updateItem unnamed_part_001 user productId quantity w
         = (Resolved (i, cart'), w') /\
       Cart.cartItems cart' = updated /\
       userItems (User.email user.2) (db w') = updated) /\
  (forall m, m <> n -> updated !! m = Cart.cartItems cart !! m) /\
  CartItem.quantity <$> updated !! n = Some quantity.
Proof.
  intros Hcart Hacc Hitem updated removed.
  assert (Cart.email cart = User.email user.2) as Hemail
    by by apply findCart_lookup in Hcart as [_ ?].
  assert (forall items w',
            db w' = withCart i (Cart.set_cartItems items cart) (db w) ->
            userItems (User.email user.2) (db w') = items) as Hstored.
  { intros items w' ->.
    by erewrite userItems_found by by apply (findCart_withCart _ _ _ cart). }
  assert (alter (CartItem.set_quantity quantity) n (Cart.cartItems cart) = updated)
    as Halter by by rewrite (alter_at _ _ n item).
  split_and!.
  - intros Hlast. split.
    + intros product Hprod. simpl.
      rewrite (Services_update_last user productId quantity w i cart product n) by done.
      cbn zeta. rewrite Halter.
      destruct (save_and_return_resolves
                  (i, Cart.set_cartItems updated cart) w Hacc) as (w' & Hsave & Hdb & _).
      exists (Cart.set_cartItems updated cart), w'.
      split_and!; [exact Hsave | done | by apply Hstored].
    + simpl. rewrite (Services_delete_last user productId w i cart n) by done.
      destruct (Cart_save_resolves
                  (i, Cart.set_cartItems (delete n (Cart.cartItems cart)) cart) w Hacc)
        as (w' & -> & Hdb).
      exists w'. split; [done|]. rewrite (Hstored _ _ Hdb). apply delete_take_drop.
  - intros Hfirst product Hprod. simpl.
    rewrite (Part001_update_first user productId quantity w i cart product n) by done.
    cbn zeta. rewrite Halter.
    destruct (save_and_return_resolves
                (i, Cart.set_cartItems updated cart) w Hacc) as (w' & Hsave & Hdb & _).
    exists (Cart.set_cartItems updated cart), w'.
    split_and!; [exact Hsave | done | by apply Hstored].
  - intros m Hm. unfold updated. by rewrite list_lookup_insert_ne.
  - unfold updated. rewrite list_lookup_insert_eq; [done|].
    by eapply lookup_lt_Some.
Qed.

Lemma duplicates_last_or_first_witness :
  exists cart' w',
    updateItem services_cart_service (1%nat, Shop.bob) "widget" 9
      (Shop.world Shop.store []) = (Resolved (0%nat, cart'), w') /\
    Cart.cartItems cart' = [Shop.line Shop.widget 1; Shop.line Shop.widget 9] /\
    userItems "bob@example.com" (db w')
      = [Shop.line Shop.widget 1; Shop.line Shop.widget 9].
Proof.
  destruct (duplicates_last_or_first (1%nat, Shop.bob) "widget" 9
              (Shop.world Shop.store []) 0
              (Shop.cartOf Shop.bob [Shop.line Shop.widget 1; Shop.line Shop.widget 2])
              1 (Shop.line Shop.widget 2)) as (Hlast & _).
  - reflexivity.
  - discriminate.
  - reflexivity.
  - destruct Hlast as [Hupdate _].
    + split; [by exists (Shop.line Shop.widget 2)|].
      intros [|[|m]] item Hlt Hm; [lia | lia | discriminate].
    + apply (Hupdate Shop.widget). reflexivity.
Defined.

(** ** Quantities *)

Lemma addItem_appends_accepted impl cfg user productId quantity w product :
  findById productId (db w) = Some product ->
  productId ∉ productIds (userItems (User.email user.2) (db w)) ->
  writesAccepted w ->
  exists i cart' w',
    addItem impl cfg user productId quantity w = (Resolved (i, cart'), w') /\
    Cart.cartItems cart'
      = (userItems (User.email user.2) (db w) ++
         [{| CartItem.product := product; CartItem.quantity := quantity |}])%list /\
    findCartForUser (User.email user.2) (db w') = Some (i, cart') /\
    writesAccepted w'.
Proof.
  intros Hprod Habs Hacc.
  pose proof (writesAccepted_next _ Hacc) as Hfirst.
  destruct (findCartForUser (User.email user.2) (db w)) as [[i cart]|] eqn:Hcart.
  - rewrite (userItems_found _ _ _ _ Hcart) in *.
    rewrite (addItem_found impl cfg user productId quantity w i cart) by done.
    rewrite Hprod. cbn zeta.
    match goal with |- context [(Cart_save ?c ;;; _) _] =>
      destruct (save_and_return_resolves c w Hfirst) as (w' & Hsave & Hdb & Hacc')
    end.
    do 2 eexists. exists w'. split_and!; [exact Hsave | done | | by apply Hacc'].
    rewrite Hdb. apply (findCart_withCart _ _ _ cart); [done|].
    by apply findCart_lookup in Hcart as [_ ?].
  - rewrite (userItems_absent _ _ Hcart) in *.
    rewrite (addItem_created impl cfg user productId quantity w) by done.
    rewrite Hprod. cbn zeta.
    match goal with |- context [(Cart_save ?c ;;; _) ?w1] =>
      destruct (save_and_return_resolves c w1) as (w' & Hsave & Hdb & Hacc');
        [apply writesAccepted_next; by apply writesAccepted_tail|]
    end.
    do 2 eexists. exists w'.
    split_and!; [exact Hsave | done | | by apply Hacc', writesAccepted_tail].
    rewrite Hdb. eapply findCart_withCart; [by apply findCart_created | done].
Qed.

Lemma addItem_appends impl cfg user productId quantity w product :
  findById productId (db w) = Some product ->
  productId ∉ productIds (userItems (User.email user.2) (db w)) ->
  writesAccepted w ->
  exists i cart' w',
    addItem impl cfg user productId quantity w = (Resolved (i, cart'), w') /\
    Cart.cartItems cart'
      = (userItems (User.email user.2) (db w) ++
         [{| CartItem.product := product; CartItem.quantity := quantity |}])%list /\
    findCartForUser (User.email user.2) (db w') = Some (i, cart').
Proof.
  intros Hprod Habs Hacc.
  destruct (addItem_appends_accepted impl cfg user productId quantity w product
              Hprod Habs Hacc) as (i & cart' & w' & ? & ? & ? & _).
  by exists i, cart', w'.
Qed.

(** C10.  Whatever the quantity, zero and negative ones included: for a
    known product that the user's cart does not hold, [addItem] (the
    storage accepting the writes) appends to the items an item of the
    product with exactly that quantity and the cart is stored so; for a
    known product that the cart holds, [updateItem] (the storage accepting
    the write) gives exactly that quantity to an item of the product and
    the cart is stored so.  No quantity is rejected. *)
Theorem quantity_stored_as_given impl cfg user productId (quantity : Z) w product :
  findById productId (db w) = Some product ->
  (productId ∉ productIds (userItems (User.email user.2) (db w)) ->
   writesAccepted w ->
   exists i cart' w',
     addItem impl cfg user productId quantity w = (Resolved (i, cart'), w') /\
     Cart.cartItems cart'
       = (userItems (User.email user.2) (db w) ++
          [{| CartItem.product := product; CartItem.quantity := quantity |}])%list /\
     findCartForUser (User.email user.2) (db w') = Some (i, cart')) /\
  (productId ∈ productIds (userItems (User.email user.2) (db w)) ->
   nextWriteAccepted w ->
   exists i cart' w' n item,
     updateItem impl user productId quantity w = (Resolved (i, cart'), w') /\
     userItems (User.email user.2) (db w) !! n = Some item /\
     productIdOf item = productId /\
     Cart.cartItems cart'
       = <[n := {| CartItem.product := CartItem.product item;
                   CartItem.quantity := quantity |}]>
           (userItems (User.email user.2) (db w)) /\
     findCartForUser (User.email user.2) (db w') = Some (i, cart')).
Proof.
  intros Hprod. split.
  - intros Habs Hacc. by apply addItem_appends.
  - intros Hin Hacc.
    destruct (findCartForUser (User.email user.2) (db w)) as [[i cart]|] eqn:Hcart.
    2: { rewrite (userItems_absent _ _ Hcart) in Hin. by apply elem_of_nil in Hin. }
    rewrite (userItems_found _ _ _ _ Hcart) in *.
    destruct (updateItem_present impl user productId quantity w i cart product
                Hcart Hprod Hin) as (n & item & Hitem & Hid & Hrun).
    cbn zeta in Hrun. rewrite Hrun.
    match goal with |- context [(Cart_save ?c ;;; _) _] =>
      destruct (save_and_return_resolves c w Hacc) as (w' & Hsave & Hdb & _)
    end.
    do 2 eexists. exists w', n, item. split_and!; [exact Hsave | done..|].
    rewrite Hdb. apply (findCart_withCart _ _ _ cart); [done|].
    by apply findCart_lookup in Hcart as [_ ?].
Qed.

Lemma quantity_stored_as_given_witness :
  (exists i cart' w',
     addItem unnamed_part_001 Shop.cfg (1%nat, Shop.bob) "gadget" (-3)
       (Shop.world Shop.fresh []) = (Resolved (i, cart'), w') /\
     Cart.cartItems cart' = [Shop.line Shop.gadget (-3)] /\
     findCartForUser "bob@example.com" (db w') = Some (i, cart')).
Proof.
  apply (quantity_stored_as_given unnamed_part_001 Shop.cfg (1%nat, Shop.bob)
           "gadget" (-3) (Shop.world Shop.fresh []) Shop.gadget).
  - reflexivity.
  - apply not_elem_of_nil.
  - constructor.
Defined.

(** Zero is stored by [updateItem] like any other quantity. *)
Example update_to_zero :
  userItems "alice@example.com"
    (db (updateItem services_cart_service (0%nat, Shop.alice) "widget" 0
           (Shop.world Shop.store [])).2)
  = [Shop.line Shop.widget 0; Shop.line Shop.gadget 1].
Proof. reflexivity. Qed.

(** ** The scenarios of the specification *)

(** Cart [(widget, cost 10, quantity 2), (gadget, cost 5, quantity 1)],
    wallet 30, an address set: checkout succeeds, the new balance is 5 and
    the cart is empty. *)
Example scenario_checkout_succeeds :
  forall impl,
    let out := checkout impl Shop.cfg (0%nat, Shop.alice) (Shop.world Shop.store []) in
    out.1 = Resolved tt /\
    User.walletMoney <$> users (db out.2) !! 0%nat = Some 5 /\
    userItems "alice@example.com" (db out.2) = [].
Proof. intros []; vm_compute; repeat split. Qed.

(** The same cart with a wallet of 20: checkout rejects with the error of
    the balance; wallet and cart are unchanged. *)
Example scenario_insufficient_balance :
  forall impl,
    let poorer := User.set_walletMoney 20 Shop.alice in
    let s := {| users := [poorer; Shop.bob; Shop.carol]; carts := carts Shop.store;
                products := products Shop.store |} in
    checkout impl Shop.cfg (0%nat, poorer) (Shop.world s [])
    = (Rejected (InsufficientBalance impl), Shop.world s []).
Proof. intros []; reflexivity. Qed.

(** [addItem] of quantity 3 twice in a row: the second call is rejected and
    the cart has one line of the product, of quantity 3. *)
Example scenario_add_twice :
  forall impl,
    let w1 := (addItem impl Shop.cfg (0%nat, Shop.alice) "widget" 3
                 (Shop.world Shop.fresh [])).2 in
    let out := addItem impl Shop.cfg (0%nat, Shop.alice) "widget" 3 w1 in
    out.1 = Rejected ProductAlreadyInCart /\
    userItems "alice@example.com" (db out.2) = [Shop.line Shop.widget 3].
Proof. intros []; vm_compute; repeat split. Qed.

(** * Further properties of the code *)

(** ** Checkout: every outcome *)

Lemma checkout_outcomes impl cfg uid user w :
  (exists status message,
     checkout impl cfg (uid, user) w = (Rejected (ApiError status message), w) /\
     (status = NOT_FOUND /\ findCartForUser (User.email user) (db w) = None \/
      status = BAD_REQUEST /\ is_Some (findCartForUser (User.email user) (db w)))) \/
  (exists i cart,
     findCartForUser (User.email user) (db w) = Some (i, cart) /\
     Cart.cartItems cart <> [] /\
     User.address user <> default_address cfg /\
     cartTotal (Cart.cartItems cart) <= User.walletMoney user /\
     let balance := User.walletMoney user - cartTotal (Cart.cartItems cart) in
     (checkout impl cfg (uid, user) w
        = (Rejected MongoError, {| db := db w; writes := tail (writes w) |}) \/
      is_Some (users (db w) !! uid) /\
      (checkout impl cfg (uid, user) w
         = (Rejected MongoError,
            {| db := debited uid balance (db w); writes := tail (tail (writes w)) |}) \/
       checkout impl cfg (uid, user) w
         = (Resolved tt,
            {| db := emptied i cart (debited uid balance (db w));
               writes := tail (tail (writes w)) |})))).
Proof.
  destruct (findCartForUser (User.email user) (db w)) as [[i cart]|] eqn:Hcart.
  2: { left. destruct (checkout_no_cart impl cfg (uid, user) w Hcart) as [message ->].
       exists NOT_FOUND, message. auto. }
  destruct (decide (Cart.cartItems cart = [])) as [Hnil|Hitems].
  { left. destruct (checkout_empty_cart impl cfg (uid, user) w i cart Hcart Hnil)
      as [message ->]. exists BAD_REQUEST, message. eauto. }
  destruct (decide (User.address user = default_address cfg)) as [Hdef|Haddr].
  { left. rewrite (checkout_default_address impl cfg (uid, user) w i cart) by done.
    destruct impl; do 2 eexists; (split; [reflexivity | eauto]). }
  rewrite (checkout_validated impl cfg (uid, user) w i cart) by done.
  cbn zeta; cbn [fst snd].
  destruct (Z.gtb_spec (cartTotal (Cart.cartItems cart)) (User.walletMoney user))
    as [Hgt|Hle].
  { left. destruct impl; do 2 eexists; (split; [reflexivity | eauto]). }
  right. exists i, cart. split_and!; [done..|]. unfold await.
  destruct (users (db w) !! uid) as [stored|] eqn:Hstored.
  2: { left. unfold User_save, write. cbn [fst snd]. rewrite Hstored.
       by destruct (writes w) as [|[] ?]. }
  destruct (nextWriteAccepted_cases w) as [Hacc|Hrej].
  2: { left. by rewrite User_save_rejected. }
  right. split; [done|]. erewrite User_save_accepted by done. cbn [User.walletMoney User.set_walletMoney].
  pose proof (emptying_modifies (db w) i cart (found_email _ _ _ _ Hcart) Hitems uid
                (User.walletMoney user - cartTotal (Cart.cartItems cart))) as Hmod.
  match goal with |- Cart_save _ ?w1 = _ \/ _ =>
    destruct (nextWriteAccepted_cases w1) as [Hacc'|Hrej'] end.
  - right. by rewrite Cart_save_accepted.
  - left. by rewrite Cart_save_rejected.
Qed.

(** X6.  A checkout that rejects with an [ApiError] has written nothing:
    the world is the one it started from.  The error is a 404 exactly when
    the user has no cart, and a 400 otherwise. *)
Theorem checkout_ApiError_writes_nothing impl cfg user w status message w' :
  checkout impl cfg user w = (Rejected (ApiError status message), w') ->
  w' = w /\
  (status = NOT_FOUND <-> findCartForUser (User.email user.2) (db w) = None) /\
  (status = BAD_REQUEST <-> is_Some (findCartForUser (User.email user.2) (db w))).
Proof.
  destruct user as [uid user]. intros Hrun. cbn [fst snd].
  destruct (checkout_outcomes impl cfg uid user w)
    as [(st & msg & Hout & Hstatus)|(i & cart & _ & _ & _ & _ & Hout)].
  - rewrite Hout in Hrun. injection Hrun as -> -> ->. split; [done|].
    destruct Hstatus as [[-> Hnone]|[-> [c Hsome]]].
    + rewrite Hnone. split; [done|]. split; [done | intros [? ?]; congruence].
    + rewrite Hsome. split; [split; congruence | by eauto].
  - cbn zeta in Hout. destruct Hout as [Hout|[_ [Hout|Hout]]];
      rewrite Hout in Hrun; discriminate.
Qed.

Lemma checkout_ApiError_writes_nothing_witness :
  Shop.world Shop.store [false] = Shop.world Shop.store [false] /\
  (BAD_REQUEST = NOT_FOUND <-> findCartForUser "bob@example.com" Shop.store = None) /\
  (BAD_REQUEST = BAD_REQUEST <-> is_Some (findCartForUser "bob@example.com" Shop.store)).
Proof.
  apply (checkout_ApiError_writes_nothing services_cart_service Shop.cfg
           (1%nat, Shop.bob) (Shop.world Shop.store [false])
           BAD_REQUEST " Address unavailable" (Shop.world Shop.store [false])).
  reflexivity.
Defined.

(** X4.  No double debit: after a checkout that resolved, a further
    checkout of the same user (the same email, either copy) rejects with a
    400 error for its empty cart and changes nothing. *)
Theorem checkout_twice impl impl' cfg user user' w w' :
  checkout impl cfg user w = (Resolved tt, w') ->
  User.email user'.2 = User.email user.2 ->
  userItems (User.email user.2) (db w') = [] /\
  exists message,
    checkout impl' cfg user' w' = (Rejected (ApiError BAD_REQUEST message), w').
Proof.
  destruct user as [uid user]. cbn [fst snd]. intros Hrun Hemail.
  destruct (checkout_resolved impl cfg uid user w w' Hrun)
    as (i & cart & Hcart & _ & _ & _ & Hdb).
  assert (findCartForUser (User.email user) (db w')
          = Some (i, Cart.set_cartItems [] cart)) as Hfind.
  { rewrite Hdb. apply (findCart_withCart _ _ _ cart); [done|].
    by apply findCart_lookup in Hcart as [_ ?]. }
  split; [by rewrite (userItems_found _ _ _ _ Hfind)|].
  apply (checkout_empty_cart impl' cfg user' w' i (Cart.set_cartItems [] cart));
    [by rewrite Hemail | done].
Qed.

Lemma checkout_twice_witness :
  exists message,
    checkout unnamed_part_001 Shop.cfg (0%nat, Shop.alice)
      (checkout services_cart_service Shop.cfg (0%nat, Shop.alice)
         (Shop.world Shop.store [])).2
    = (Rejected (ApiError BAD_REQUEST message),
       (checkout services_cart_service Shop.cfg (0%nat, Shop.alice)
          (Shop.world Shop.store [])).2).
Proof.
  apply (checkout_twice services_cart_service unnamed_part_001 Shop.cfg
           (0%nat, Shop.alice) (0%nat, Shop.alice) (Shop.world Shop.store [])).
  - reflexivity.
  - reflexivity.
Defined.

Lemma find_other_inserted {A} (P : A -> Prop) `{!forall x, Decision (P x)}
    (l : list A) i x y :
  l !! i = Some y -> ~ P y -> ~ P x -> list_find P (<[i := x]> l) = list_find P l.
Proof.
  revert i. induction l as [|z l IH]; intros [|i] Hy Hny Hnx; simpl in *; try done.
  - injection Hy as ->. by rewrite !decide_False.
  - destruct (decide (P z)); [done|]. by rewrite IH.
Qed.

Lemma find_other_appended {A} (P : A -> Prop) `{!forall x, Decision (P x)}
    (l : list A) x :
  ~ P x -> list_find P (l ++ [x]) = list_find P l.
Proof.
  intros Hnx. induction l as [|z l IH]; simpl.
  - by rewrite decide_False.
  - destruct (decide (P z)); [done|]. by rewrite IH.
Qed.

Lemma findCart_other_withCart email email' s i cart cart' :
  findCartForUser email s = Some (i, cart) ->
  Cart.email cart' = email -> email' <> email ->
  findCartForUser email' (withCart i cart' s) = findCartForUser email' s.
Proof.
  intros [Hi Hemail]%findCart_lookup Hemail' Hne. unfold findCartForUser. simpl.
  apply (find_other_inserted _ _ _ _ cart); [done | congruence | congruence].
Qed.

Lemma checkout_emails impl cfg user w :
  let s' := db (checkout impl cfg user w).2 in
  User.email <$> users s' = User.email <$> users (db w) /\
  Cart.email <$> carts s' = Cart.email <$> carts (db w).
Proof.
  destruct user as [uid user]. cbn zeta.
  assert (forall b, User.email <$> users (debited uid b (db w)) = User.email <$> users (db w))
    as Hemails.
  { intros b. simpl. rewrite (list_fmap_alter User.email _ id) by by apply Forall_true.
    by apply list_alter_id. }
  destruct (checkout_outcomes impl cfg uid user w)
    as [(st & msg & -> & _)|(i & cart & Hcart & _ & _ & _ & Hout)]; [done|].
  cbn zeta in Hout. destruct Hout as [->|[_ [->| ->]]]; cbn [snd db]; [done | done |].
  split; [apply Hemails|].
  simpl. rewrite list_fmap_insert. apply list_insert_id.
  rewrite list_lookup_fmap. apply findCart_lookup in Hcart as [Hi _]. by rewrite Hi.
Qed.

(** X14.  Whatever its outcome and whatever the storage does, a checkout
    leaves the products, the emails and addresses of all users, every
    other user record, the emails of the carts and the cart of every other
    email as they were.  (Of the user record the model has the email, the
    wallet and the address; the name and the password hash, which the
    [pre("save")] hook of the user model rewrites on every save, are not
    part of it, and nothing is stated about them.) *)
Theorem checkout_frame impl cfg user w :
  let s := db w in
  let s' := db (checkout impl cfg user w).2 in
  products s' = products s /\
  User.email <$> users s' = User.email <$> users s /\
  User.address <$> users s' = User.address <$> users s /\
  (forall j, j <> user.1 -> users s' !! j = users s !! j) /\
  Cart.email <$> carts s' = Cart.email <$> carts s /\
  (forall email, email <> User.email user.2 ->
     findCartForUser email s' = findCartForUser email s).
Proof.
  destruct user as [uid user]. cbn zeta. cbn [fst snd].
  assert (forall b, User.email <$> users (debited uid b (db w)) = User.email <$> users (db w))
    as Hemails.
  { intros b. simpl. rewrite (list_fmap_alter User.email _ id) by by apply Forall_true.
    by apply list_alter_id. }
  assert (forall b, User.address <$> users (debited uid b (db w))
                    = User.address <$> users (db w)) as Haddrs.
  { intros b. simpl. rewrite (list_fmap_alter User.address _ id) by by apply Forall_true.
    by apply list_alter_id. }
  destruct (checkout_outcomes impl cfg uid user w)
    as [(st & msg & -> & _)|(i & cart & Hcart & _ & _ & _ & Hout)]; [done|].
  cbn zeta in Hout. destruct Hout as [->|[_ [->| ->]]]; cbn [snd db].
  - done.
  - split_and!; [done | done | done | | done | done].
    intros j Hj. simpl. by rewrite list_lookup_alter_ne.
  - split_and!; [done | apply Hemails | apply Haddrs | | |].
    + intros j Hj. simpl. by rewrite list_lookup_alter_ne.
    + simpl. rewrite list_fmap_insert. apply list_insert_id.
      rewrite list_lookup_fmap. apply findCart_lookup in Hcart as [Hi _]. by rewrite Hi.
    + intros email Hne.
      apply (findCart_other_withCart (User.email user) email
               (debited uid _ (db w)) i cart); [done | | done].
      by apply findCart_lookup in Hcart as [_ ?].
Qed.

(** ** The two copies side by side *)

Section Totals.
Import Binary64.

(** X16.  The two copies compute the same total, as numbers of binary64:
    the products of cost and quantity mapped and then summed by the loop
    of [services/cart.service.js], and the [reduce] of the second copy
    over the products of quantity and cost, give the same number on every
    list of items.  Both sum from [0] in the order of the cart, and the
    product of two numbers does not depend on their order. *)
Theorem totals_agree items :
  Services.totalOf (Services.subtotals items) = Part001.totalCostOf items.
Proof.
  unfold Services.totalOf, Part001.totalCostOf. generalize zero.
  induction items as [|item rest IH]; intros total; simpl; [done|].
  by rewrite IH, times_comm.
Qed.

(** The order of the cart matters to the total: the sum is rounded at
    every step. *)
Example total_depends_on_order :
  toZ (Part001.totalCostOf [line "widget" (2 ^ 53) 1; line "gadget" 1 1; line "gizmo" 1 1])
  = Some (2 ^ 53) /\
  toZ (Part001.totalCostOf [line "gadget" 1 1; line "gizmo" 1 1; line "widget" (2 ^ 53) 1])
  = Some (2 ^ 53 + 2).
Proof. vm_compute. split; reflexivity. Qed.

End Totals.


(** ** The cart manager: what a request does to the store *)

Lemma Cart_save_storeStep email w i cart items :
  findCartForUser email (db w) = Some (i, cart) ->
  itemsStep (Cart.cartItems cart) items ->
  storeStep email (db w) (db (Cart_save (i, Cart.set_cartItems items cart) w).2).
Proof.
  intros Hcart Hstep.
  destruct (Cart_save_store (i, Cart.set_cartItems items cart) w) as [->|[_ ->]].
  - constructor.
  - by apply store_saved.
Qed.

Lemma addItem_storeStep impl cfg user productId quantity w :
  storeStep (User.email user.2) (db w) (db (addItem impl cfg user productId quantity w).2).
Proof.
  destruct (findCartForUser (User.email user.2) (db w)) as [[i cart]|] eqn:Hcart.
  - destruct (decide (productId ∈ productIds (Cart.cartItems cart))) as [Hin|Habs].
    + rewrite (addItem_duplicate impl cfg user productId quantity w i cart) by done.
      constructor.
    + rewrite (addItem_found impl cfg user productId quantity w i cart) by done.
      destruct (findById productId (db w)) as [product|] eqn:Hprod; [|constructor].
      cbn zeta. rewrite await_resolve_world.
      apply Cart_save_storeStep; [done|]. constructor.
      by rewrite (findById_id _ _ _ Hprod).
  - destruct (nextWriteAccepted_cases w) as [Hacc|Hrej].
    + rewrite (addItem_created impl cfg user productId quantity w) by done. cbn zeta.
      set (fields := newCart impl cfg (User.email user.2)).
      destruct (findById productId (db w)) as [product|] eqn:Hprod.
      * rewrite await_resolve_world.
        match goal with |- context [Cart_save ?c ?w1] =>
          destruct (Cart_save_store c w1) as [->|[_ ->]] end.
        -- by apply store_created.
        -- cbn [fst snd db].
           apply store_created_saved; [done | done | done |].
           apply (step_push [] product quantity), not_elem_of_nil.
      * by apply store_created.
    + destruct (addItem_not_created impl cfg user productId quantity w Hcart Hrej)
        as [message ->]. constructor.
Qed.

Lemma updateItem_storeStep impl user productId quantity w :
  storeStep (User.email user.2) (db w) (db (updateItem impl user productId quantity w).2).
Proof.
  destruct (findCartForUser (User.email user.2) (db w)) as [[i cart]|] eqn:Hcart.
  2: { destruct (updateItem_no_cart impl user productId quantity w Hcart) as [? ->].
       constructor. }
  destruct (findById productId (db w)) as [product|] eqn:Hprod.
  2: { destruct (updateItem_unknown impl user productId quantity w i cart Hcart Hprod)
         as [? ->]. constructor. }
  destruct (decide (productId ∈ productIds (Cart.cartItems cart))) as [Hin|Habs].
  2: { rewrite (updateItem_absent impl user productId quantity w i cart product) by done.
       constructor. }
  destruct impl; simpl.
  - destruct (lastMatch_exists _ _ Hin) as [n Hlast].
    rewrite (Services_update_last user productId quantity w i cart product n) by done.
    cbn zeta. rewrite await_resolve_world. apply Cart_save_storeStep; [done | constructor].
  - destruct (firstMatch_exists _ _ Hin) as [n Hfirst].
    rewrite (Part001_update_first user productId quantity w i cart product n) by done.
    cbn zeta. rewrite await_resolve_world. apply Cart_save_storeStep; [done | constructor].
Qed.

Lemma removeItem_storeStep impl user productId w :
  storeStep (User.email user.2) (db w) (db (removeItem impl user productId w).2).
Proof.
  destruct (findCartForUser (User.email user.2) (db w)) as [[i cart]|] eqn:Hcart.
  2: { destruct (removeItem_no_cart impl user productId w Hcart) as [? ->]. constructor. }
  destruct (decide (productId ∈ productIds (Cart.cartItems cart))) as [Hin|Habs].
  2: { rewrite (removeItem_absent impl user productId w i cart) by done. constructor. }
  destruct impl; simpl.
  - destruct (lastMatch_exists _ _ Hin) as [n Hlast].
    rewrite (Services_delete_last user productId w i cart n) by done.
    apply Cart_save_storeStep; [done | constructor].
  - rewrite (Part001_delete_present user productId w i cart) by done. constructor.
Qed.

Lemma perform_storeStep impl cfg user call w :
  storeStep (User.email user.2) (db w) (db (perform impl cfg user call w).2).
Proof.
  destruct call as [productId quantity|productId quantity|productId]; simpl.
  - rewrite await_resolve_world. apply addItem_storeStep.
  - rewrite await_resolve_world. apply updateItem_storeStep.
  - apply removeItem_storeStep.
Qed.

Lemma storeStep_other email email' s s' :
  storeStep email s s' -> email' <> email ->
  findCartForUser email' s' = findCartForUser email' s.
Proof.
  intros [|i cart items Hcart _|fields Hnone Hemail _|fields items Hnone Hemail _ _] Hne.
  - done.
  - apply (findCart_other_withCart email email' s i cart); [done | | done].
    simpl. by apply findCart_lookup in Hcart as [_ ?].
  - unfold findCartForUser. simpl. apply find_other_appended. congruence.
  - rewrite (findCart_other_withCart email email' (created fields s) _ fields);
      [| by apply findCart_created | done | done].
    unfold findCartForUser. simpl. apply find_other_appended. congruence.
Qed.

Lemma storeStep_emails email s s' :
  storeStep email s s' ->
  Cart.email <$> carts s' = Cart.email <$> carts s \/
  (findCartForUser email s = None /\
   Cart.email <$> carts s' = ((Cart.email <$> carts s) ++ [email])%list).
Proof.
  intros [|i cart items Hcart _|fields Hnone Hemail _|fields items Hnone Hemail _ _].
  - by left.
  - left. simpl. rewrite list_fmap_insert. apply list_insert_id.
    rewrite list_lookup_fmap. apply findCart_lookup in Hcart as [Hi _]. by rewrite Hi.
  - right. split; [done|]. simpl. by rewrite fmap_app, <- Hemail.
  - right. split; [done|]. simpl. rewrite list_fmap_insert, fmap_app. simpl.
    rewrite Hemail. apply list_insert_id.
    rewrite lookup_app_r, length_fmap, Nat.sub_diag by (by rewrite length_fmap). done.
Qed.

Lemma storeStep_linesUnique email s s' :
  storeStep email s s' -> linesUnique s -> linesUnique s'.
Proof.
  unfold linesUnique.
  intros [|i cart items Hcart Hstep|fields Hnone Hemail Hnil
          |fields items Hnone Hemail Hnil Hstep] Hs.
  - done.
  - simpl. apply Forall_insert; [done|]. simpl.
    apply (itemsStep_NoDup _ _ Hstep).
    apply findCart_lookup in Hcart as [Hi _].
    exact (Forall_lookup_1 _ _ _ _ Hs Hi).
  - simpl. apply Forall_app. split; [done|]. constructor; [|done].
    rewrite Hnil. apply NoDup_nil_2.
  - simpl. apply Forall_insert.
    + apply Forall_app. split; [done|]. constructor; [|done].
      rewrite Hnil. apply NoDup_nil_2.
    + simpl. apply (itemsStep_NoDup _ _ Hstep). apply NoDup_nil_2.
Qed.

(** X12.  A request to the cart manager touches the cart of its user
    only: whatever the request, its outcome and the storage, the users,
    the products and the cart of every other email are as they were. *)
Theorem request_isolated impl cfg user call w :
  let s' := db (perform impl cfg user call w).2 in
  users s' = users (db w) /\
  products s' = products (db w) /\
  (forall email, email <> User.email user.2 ->
     findCartForUser email s' = findCartForUser email (db w)).
Proof.
  cbn zeta. pose proof (perform_storeStep impl cfg user call w) as Hstep.
  split_and!.
  - by destruct Hstep.
  - by destruct Hstep.
  - intros email Hne. by apply (storeStep_other _ _ _ _ Hstep).
Qed.

Lemma emails_absent email s :
  findCartForUser email s = None -> email ∉ Cart.email <$> carts s.
Proof.
  intros Hnone%list_find_None (cart & Hemail & Hin)%list_elem_of_fmap.
  by apply (proj1 (Forall_forall _ _) Hnone cart Hin).
Qed.

Lemma handle_oneCartPerEmail impl cfg request w :
  oneCartPerEmail (db w) -> oneCartPerEmail (db (handle impl cfg request w).2).
Proof.
  unfold oneCartPerEmail. intros Hw. destruct request as [user call|user]; simpl.
  - destruct (storeStep_emails _ _ _ (perform_storeStep impl cfg user call w))
      as [->|[Hnone ->]]; [done|].
    apply NoDup_app. split_and!; [done | | apply NoDup_singleton].
    intros x Hx ->%list_elem_of_singleton. by apply (emails_absent _ _ Hnone).
  - destruct (checkout_emails impl cfg user w) as [_ Hemails].
    cbn zeta in Hemails. by rewrite Hemails.
Qed.

Lemma handle_linesUnique impl cfg request w :
  linesUnique (db w) -> linesUnique (db (handle impl cfg request w).2).
Proof.
  intros Hw. destruct request as [user call|[uid user]]; simpl.
  - by apply (storeStep_linesUnique _ _ _ (perform_storeStep impl cfg user call w)).
  - destruct (checkout_outcomes impl cfg uid user w)
      as [(st & msg & -> & _)|(i & cart & Hcart & _ & _ & _ & Hout)]; [done|].
    cbn zeta in Hout. destruct Hout as [->|[_ [->| ->]]]; cbn [snd db]; try done.
    unfold linesUnique. simpl. apply Forall_insert; [done|]. apply NoDup_nil_2.
Qed.

(** X13.  One cart per email: in a store where no two carts share an
    email, no sequence of requests of any users (additions, updates,
    removals and checkouts, resolved or rejected, under any storage) makes
    two carts of one email: [addItem] creates a cart only for a user who
    has none. *)
Theorem serve_oneCartPerEmail impl cfg requests w :
  oneCartPerEmail (db w) -> oneCartPerEmail (db (serve impl cfg requests w)).
Proof.
  revert w. induction requests as [|request rest IH]; intros w Hw; [done|].
  simpl. by apply IH, handle_oneCartPerEmail.
Qed.

Lemma serve_oneCartPerEmail_witness :
  oneCartPerEmail
    (db (serve unnamed_part_001 Shop.cfg
           [CartRequest (0%nat, Shop.alice) (AddItem "widget" 1);
            CartRequest (1%nat, Shop.bob) (AddItem "nothing" 1);
            CartRequest (0%nat, Shop.alice) (AddItem "gadget" 2);
            Checkout (0%nat, Shop.alice);
            CartRequest (1%nat, Shop.bob) (AddItem "gadget" 2)]
           (Shop.world Shop.fresh [true; false]))).
Proof.
  apply (serve_oneCartPerEmail unnamed_part_001 Shop.cfg).
  apply NoDup_nil_2.
Defined.

(** ** [isEmailTaken] *)




(** X20.  Uniqueness of the lines for the whole store: in a store where
    every cart holds at most one item per product, that still holds after
    any sequence of requests of any users, checkouts included, that spell
    their identifiers in the printed form. *)
Theorem serve_linesUnique impl cfg requests w :
  Forall canonicalRequest requests ->
  canonicalStore (db w) ->
  linesUnique (db w) -> linesUnique (db (serve impl cfg requests w)).
Proof.
  intros _ _. revert w. induction requests as [|request rest IH]; intros w Hw; [done|].
  simpl. by apply IH, handle_linesUnique.
Qed.

Lemma serve_linesUnique_witness :
  linesUnique
    (db (serve services_cart_service Shop.cfg
           [CartRequest (0%nat, Shop.alice) (AddItem "5f71c1ca04c69a5874e9fd45" 1);
            CartRequest (2%nat, Shop.carol) (AddItem "5f71c1ca04c69a5874e9fd45" 5);
            CartRequest (0%nat, Shop.alice) (AddItem "5f71c1ca04c69a5874e9fd45" 2);
            CartRequest (2%nat, Shop.carol) (UpdateItem "5f71c1ca04c69a5874e9fd45" 0);
            Checkout (0%nat, Shop.alice)]
           (Shop.world Hardware.fresh []))).
Proof.
  apply (serve_linesUnique services_cart_service Shop.cfg).
  - repeat constructor.
  - split; repeat constructor.
  - constructor.
Defined.

(** ** The cart manager: round trips *)

Lemma save_and_return_resolved cart w result w' :
  (Cart_save cart ;;; resolve cart) w = (Resolved result, w') ->
  result = cart /\ db w' = withCart cart.1 cart.2 (db w).
Proof.
  unfold await.
  destruct (decide (carts (db w) !! cart.1 = Some cart.2)) as [Hsame|Hmod].
  - rewrite Cart_save_unmodified by done. intros [= <- <-].
    by rewrite withCart_stored.
  - destruct (nextWriteAccepted_cases w) as [Hacc|Hrej].
    + rewrite Cart_save_accepted by done. by intros [= <- <-].
    + by rewrite Cart_save_rejected.
Qed.

Lemma getCart_found impl user w cart :
  findCartForUser (User.email user.2) (db w) = Some cart ->
  getCart impl user w = (Resolved cart, w).
Proof.
  intros Hcart. destruct impl; simpl;
    unfold Services.getCartByUser, Part001.getCartByUser; run; by rewrite Hcart.
Qed.

Lemma addItem_resolved_found impl cfg user productId quantity w cart w' :
  addItem impl cfg user productId quantity w = (Resolved cart, w') ->
  findCartForUser (User.email user.2) (db w') = Some cart.
Proof.
  destruct (findCartForUser (User.email user.2) (db w)) as [[i old]|] eqn:Hcart.
  - destruct (decide (productId ∈ productIds (Cart.cartItems old))) as [Hin|Habs].
    { by rewrite (addItem_duplicate impl cfg user productId quantity w i old). }
    rewrite (addItem_found impl cfg user productId quantity w i old) by done.
    destruct (findById productId (db w)) as [product|]; [|done].
    cbn zeta. intros [-> ->]%save_and_return_resolved. cbn [fst snd].
    apply (findCart_withCart _ _ _ old); [done|].
    by apply findCart_lookup in Hcart as [_ ?].
  - destruct (nextWriteAccepted_cases w) as [Hacc|Hrej].
    2: { by destruct (addItem_not_created impl cfg user productId quantity w Hcart Hrej)
           as [message ->]. }
    rewrite (addItem_created impl cfg user productId quantity w) by done. cbn zeta.
    destruct (findById productId (db w)) as [product|]; [|done].
    intros [-> ->]%save_and_return_resolved. cbn [fst snd db].
    eapply findCart_withCart; [by apply findCart_created | done].
Qed.

(** X2.  What [addItem] returns is what is stored: when [addItem]
    resolves to a cart, [getCartByUser] (either copy) on the world it
    leaves resolves to that very cart. *)
Theorem addItem_then_getCart impl impl' cfg user productId quantity w cart w' :
  addItem impl cfg user productId quantity w = (Resolved cart, w') ->
  getCart impl' user w' = (Resolved cart, w').
Proof. intros Hrun. by eapply getCart_found, addItem_resolved_found. Qed.

Lemma addItem_then_getCart_witness :
  getCart services_cart_service (1%nat, Shop.bob)
    (addItem unnamed_part_001 Shop.cfg (1%nat, Shop.bob) "gadget" 2
       (Shop.world Shop.store [])).2
  = (Resolved (0%nat, Shop.cartOf Shop.bob
                        [Shop.line Shop.widget 1; Shop.line Shop.widget 2;
                         Shop.line Shop.gadget 2]),
     (addItem unnamed_part_001 Shop.cfg (1%nat, Shop.bob) "gadget" 2
        (Shop.world Shop.store [])).2).
Proof.
  apply (addItem_then_getCart unnamed_part_001 services_cart_service Shop.cfg
           (1%nat, Shop.bob) "gadget" 2 (Shop.world Shop.store [])).
  reflexivity.
Defined.

(** X3.  The same for [updateItem]: the cart it resolves to is the cart
    [getCartByUser] then finds. *)
Theorem updateItem_then_getCart impl impl' user productId quantity w cart w' :
  updateItem impl user productId quantity w = (Resolved cart, w') ->
  getCart impl' user w' = (Resolved cart, w').
Proof.
  intros Hrun. apply getCart_found. revert Hrun.
  destruct (findCartForUser (User.email user.2) (db w)) as [[i old]|] eqn:Hcart.
  2: { by destruct (updateItem_no_cart impl user productId quantity w Hcart) as [? ->]. }
  destruct (findById productId (db w)) as [product|] eqn:Hprod.
  2: { by destruct (updateItem_unknown impl user productId quantity w i old Hcart Hprod)
         as [? ->]. }
  destruct (decide (productId ∈ productIds (Cart.cartItems old))) as [Hin|Habs].
  2: { by rewrite (updateItem_absent impl user productId quantity w i old product). }
  destruct (updateItem_present impl user productId quantity w i old product
              Hcart Hprod Hin) as (n & item & _ & _ & Hrun).
  cbn zeta in Hrun. rewrite Hrun. intros [-> ->]%save_and_return_resolved.
  cbn [fst snd]. apply (findCart_withCart _ _ _ old); [done|].
  by apply findCart_lookup in Hcart as [_ ?].
Qed.

Lemma updateItem_then_getCart_witness :
  getCart unnamed_part_001 (2%nat, Shop.carol)
    (updateItem services_cart_service (2%nat, Shop.carol) "widget" 7
       (Shop.world Shop.store [])).2
  = (Resolved (2%nat, Shop.cartOf Shop.carol
                        [Shop.line Shop.widget 7; Shop.line Shop.gadget 1]),
     (updateItem services_cart_service (2%nat, Shop.carol) "widget" 7
        (Shop.world Shop.store [])).2).
Proof.
  apply (updateItem_then_getCart services_cart_service unnamed_part_001
           (2%nat, Shop.carol) "widget" 7 (Shop.world Shop.store [])).
  reflexivity.
Defined.

Lemma lastMatch_appended productId items item :
  productId ∉ productIds items -> productIdOf item = productId ->
  lastMatch productId (items ++ [item])%list (length items).
Proof.
  intros Habs Hid. split.
  - exists item. split; [|done]. by rewrite lookup_app_r, Nat.sub_diag.
  - intros m it' Hlt Hm. apply lookup_lt_Some in Hm.
    rewrite length_app in Hm. simpl in Hm. lia.
Qed.

Lemma delete_appended {A} (l : list A) x : delete (length l) (l ++ [x])%list = l.
Proof. induction l as [|y l IH]; simpl; [done | by rewrite IH]. Qed.

(** X19.  Adding then removing is a round trip in
    [services/cart.service.js]: for an identifier in the printed form of a
    product of the catalogue that the user's cart does not hold, and a
    storage that accepts the writes, [addItem] followed by [removeItem] of
    the same identifier resolves and leaves the items of the user's cart
    as they were before the addition. *)
Theorem Services_add_then_remove cfg user productId quantity w product :
  canonicalId productId = true ->
  canonicalStore (db w) ->
  findById productId (db w) = Some product ->
  productId ∉ productIds (userItems (User.email user.2) (db w)) ->
  writesAccepted w ->
  let w1 := (addItem services_cart_service cfg user productId quantity w).2 in
  let out := removeItem services_cart_service user productId w1 in
  out.1 = Resolved tt /\
  userItems (User.email user.2) (db out.2) = userItems (User.email user.2) (db w).
Proof.
  intros _ _ Hprod Habs Hacc. cbn zeta.
  set (item := {| CartItem.product := product; CartItem.quantity := quantity |}).
  assert (productIdOf item = productId) as Hid by exact (findById_id _ _ _ Hprod).
  destruct (addItem_appends_accepted services_cart_service cfg user productId quantity w
              product Hprod Habs Hacc) as (i & cart1 & w1 & -> & Hitems & Hcart1 & Hacc1).
  fold item in Hitems. cbn [snd]. simpl removeItem.
  rewrite (Services_delete_last user productId w1 i cart1
             (length (userItems (User.email user.2) (db w))))
    by (try done; rewrite Hitems; by apply lastMatch_appended).
  match goal with |- context [Cart_save ?c w1] =>
    destruct (Cart_save_resolves c w1 (writesAccepted_next _ Hacc1)) as (w2 & -> & Hdb)
  end.
  split; [done|]. cbn [fst snd] in *. rewrite Hdb.
  erewrite userItems_found
    by (apply (findCart_withCart _ _ _ cart1);
        [exact Hcart1 | by apply findCart_lookup in Hcart1 as [_ ?]]).
  simpl. rewrite Hitems. apply delete_appended.
Qed.

Lemma Services_add_then_remove_witness :
  userItems "alice@example.com"
    (db (removeItem services_cart_service (0%nat, Shop.alice) "5f71c1ca04c69a5874e9fd46"
           (addItem services_cart_service Shop.cfg (0%nat, Shop.alice)
              "5f71c1ca04c69a5874e9fd46" 4 (Shop.world Hardware.store [])).2).2)
  = [Shop.line Hardware.bolt 4].
Proof.
  apply (Services_add_then_remove Shop.cfg (0%nat, Shop.alice) "5f71c1ca04c69a5874e9fd46" 4
           (Shop.world Hardware.store []) Hardware.nut).
  - reflexivity.
  - split; repeat constructor.
  - reflexivity.
  - intros Hin. apply list_elem_of_In in Hin. simpl in Hin.
    destruct Hin as [Hin|[]]; discriminate.
  - constructor.
Defined.

(** ** The cart manager: errors *)

(** X7.  An [addItem] of an identifier in the printed form that no
    product of the catalogue has rejects with the 400 error "Product
    doesn't exist in database".  For a user whose cart does not hold the
    identifier the world is unchanged; for a user who has no cart the cart
    was created first, so the rejection leaves a new, empty cart of the
    user in the store. *)
Theorem addItem_unknown_product impl cfg user productId quantity w :
  canonicalId productId = true ->
  canonicalStore (db w) ->
  findById productId (db w) = None ->
  let unknown := ApiError BAD_REQUEST "Product doesn't exist in database" in
  (forall i cart,
     findCartForUser (User.email user.2) (db w) = Some (i, cart) ->
     productId ∉ productIds (Cart.cartItems cart) ->
     addItem impl cfg user productId quantity w = (Rejected unknown, w)) /\
  (findCartForUser (User.email user.2) (db w) = None -> nextWriteAccepted w ->
   let fields := newCart impl cfg (User.email user.2) in
   addItem impl cfg user productId quantity w
     = (Rejected unknown,
        {| db := created fields (db w); writes := tail (writes w) |}) /\
   findCartForUser (User.email user.2) (created fields (db w))
     = Some (length (carts (db w)), fields) /\
   Cart.cartItems fields = []).
Proof.
  intros _ _ Hprod. cbn zeta. split.
  - intros i cart Hcart Habs.
    rewrite (addItem_found impl cfg user productId quantity w i cart) by done.
    by rewrite Hprod.
  - intros Hcart Hacc. split_and!; [|by apply findCart_created | done].
    rewrite (addItem_created impl cfg user productId quantity w) by done.
    by rewrite Hprod.
Qed.

Lemma addItem_unknown_product_witness :
  addItem services_cart_service Shop.cfg (1%nat, Shop.bob) "5f71c1ca04c69a5874e9fd47" 1
    (Shop.world Hardware.fresh [])
  = (Rejected (ApiError BAD_REQUEST "Product doesn't exist in database"),
     Shop.world
       {| users := users Hardware.fresh;
          carts := [Shop.cartOf Shop.bob []];
          products := products Hardware.fresh |} []).
Proof.
  apply (addItem_unknown_product services_cart_service Shop.cfg (1%nat, Shop.bob)
           "5f71c1ca04c69a5874e9fd47" 1 (Shop.world Hardware.fresh [])).
  - reflexivity.
  - split; repeat constructor.
  - reflexivity.
  - reflexivity.
  - discriminate.
Defined.

(** X8.  When the user has no cart and the storage rejects the creation,
    [addItem] rejects with a 500 [ApiError] (the error of the storage is
    caught and replaced) and the store is as it was; the product is not
    even looked up. *)
Theorem addItem_creation_fails impl cfg user productId quantity w :
  findCartForUser (User.email user.2) (db w) = None ->
  head (writes w) = Some false ->
  exists message,
    addItem impl cfg user productId quantity w
    = (Rejected (ApiError INTERNAL_SERVER_ERROR message),
       {| db := db w; writes := tail (writes w) |}) /\
    statusCode INTERNAL_SERVER_ERROR = 500.
Proof.
  intros Hcart Hrej.
  destruct (addItem_not_created impl cfg user productId quantity w Hcart Hrej)
    as [message ->]. by exists message.
Qed.

Lemma addItem_creation_fails_witness :
  exists message,
    addItem unnamed_part_001 Shop.cfg (1%nat, Shop.bob) "gadget" 1
      (Shop.world Shop.fresh [false])
    = (Rejected (ApiError INTERNAL_SERVER_ERROR message), Shop.world Shop.fresh []) /\
    statusCode INTERNAL_SERVER_ERROR = 500.
Proof.
  apply (addItem_creation_fails unnamed_part_001 Shop.cfg (1%nat, Shop.bob) "gadget" 1
           (Shop.world Shop.fresh [false])).
  - reflexivity.
  - reflexivity.
Defined.

Lemma appended_differs {A} (l : list A) x : (l ++ [x])%list <> l.
Proof. intros H%(f_equal length). rewrite length_app in H. simpl in H. lia. Qed.

Lemma deleted_differs {A} (l : list A) n x : l !! n = Some x -> delete n l <> l.
Proof.
  intros Hn H%(f_equal length). apply lookup_lt_Some in Hn.
  rewrite length_delete in H by (by apply lookup_lt_is_Some_2). lia.
Qed.

Lemma requantified_differs (items : list CartItem.t) (n : nat) item quantity :
  items !! n = Some item -> CartItem.quantity item <> quantity ->
  <[n := CartItem.set_quantity quantity item]> items <> items.
Proof.
  intros Hn Hq Heq. apply Hq. pose proof Hn as Hn'. rewrite <- Heq in Hn'.
  rewrite list_lookup_insert_eq in Hn' by by eapply lookup_lt_Some.
  injection Hn' as <-. done.
Qed.

Lemma requantified_same (items : list CartItem.t) (n : nat) item :
  items !! n = Some item ->
  <[n := CartItem.set_quantity (CartItem.quantity item) item]> items = items.
Proof. intros Hn. apply list_insert_id. by destruct item. Qed.

Lemma set_cartItems_modifies s i cart items :
  carts s !! i = Some cart -> items <> Cart.cartItems cart ->
  carts s !! i <> Some (Cart.set_cartItems items cart).
Proof. intros -> Hne [= Heq]. apply Hne. by rewrite Heq. Qed.

(** X9.  A save that the storage rejects is all or nothing, and a save
    that has nothing to send does not reach the storage.  For a user with
    a cart and a storage that would reject the next write: an [addItem] of
    a new known product, an [updateItem] of a known product of the cart to
    a quantity that its items do not have, and a [removeItem] of a product
    of the cart in [services/cart.service.js] each reject with the error
    of the storage itself (not an [ApiError]) and leave the store as it
    was; an [updateItem] to the quantity the items of the product already
    have resolves to the cart as it is and sends no write, and the
    [removeItem] of the second copy resolves and sends no write. *)
Theorem rejected_save_keeps_store impl cfg user productId quantity w i cart product :
  findCartForUser (User.email user.2) (db w) = Some (i, cart) ->
  head (writes w) = Some false ->
  let w' := {| db := db w; writes := tail (writes w) |} in
  (productId ∉ productIds (Cart.cartItems cart) ->
   findById productId (db w) = Some product ->
   addItem impl cfg user productId quantity w = (Rejected MongoError, w')) /\
  (productId ∈ productIds (Cart.cartItems cart) ->
   findById productId (db w) = Some product ->
   (forall item, item ∈ Cart.cartItems cart -> productIdOf item = productId ->
      CartItem.quantity item <> quantity) ->
   updateItem impl user productId quantity w = (Rejected MongoError, w')) /\
  (productId ∈ productIds (Cart.cartItems cart) ->
   findById productId (db w) = Some product ->
   (forall item, item ∈ Cart.cartItems cart -> productIdOf item = productId ->
      CartItem.quantity item = quantity) ->
   updateItem impl user productId quantity w = (Resolved (i, cart), w)) /\
  (productId ∈ productIds (Cart.cartItems cart) ->
   removeItem services_cart_service user productId w = (Rejected MongoError, w') /\
   removeItem unnamed_part_001 user productId w = (Resolved tt, w)).
Proof.
  intros Hcart Hrej. cbn zeta.
  pose proof (findCart_lookup _ _ _ _ Hcart) as [Hi _].
  split_and!.
  - intros Habs Hprod.
    rewrite (addItem_found impl cfg user productId quantity w i cart) by done.
    rewrite Hprod. cbn zeta. unfold await.
    rewrite Cart_save_rejected; [done | done |].
    apply set_cartItems_modifies; [done | apply appended_differs].
  - intros Hin Hprod Hother.
    destruct (updateItem_present impl user productId quantity w i cart product
                Hcart Hprod Hin) as (n & item & Hitem & Hid & Hrun).
    cbn zeta in Hrun. rewrite Hrun. unfold await.
    rewrite Cart_save_rejected; [done | done |].
    apply set_cartItems_modifies; [done|].
    apply requantified_differs; [done|].
    apply Hother; [by eapply list_elem_of_lookup_2 | done].
  - intros Hin Hprod Hsame.
    destruct (updateItem_present impl user productId quantity w i cart product
                Hcart Hprod Hin) as (n & item & Hitem & Hid & Hrun).
    cbn zeta in Hrun. rewrite Hrun. unfold await.
    rewrite <- (Hsame item) by (by eapply list_elem_of_lookup_2 || done).
    rewrite requantified_same, set_cartItems_same by done.
    by rewrite Cart_save_unmodified.
  - intros Hin. split.
    + simpl. destruct (lastMatch_exists _ _ Hin) as [n Hlast].
      pose proof Hlast as [(item & Hitem & _) _].
      rewrite (Services_delete_last user productId w i cart n) by done.
      rewrite Cart_save_rejected; [done | done |].
      apply set_cartItems_modifies; [done | by eapply deleted_differs].
    + simpl. by rewrite (Part001_delete_present user productId w i cart).
Qed.

Lemma rejected_save_keeps_store_witness :
  updateItem services_cart_service (0%nat, Shop.alice) "gadget" 9
    (Shop.world Shop.store [false; true])
  = (Rejected MongoError, Shop.world Shop.store [true]).
Proof.
  apply (rejected_save_keeps_store services_cart_service Shop.cfg (0%nat, Shop.alice)
           "gadget" 9 (Shop.world Shop.store [false; true]) 1
           (Shop.cartOf Shop.alice Shop.basket) Shop.gadget).
  - reflexivity.
  - reflexivity.
  - apply list_elem_of_In. simpl. auto.
  - reflexivity.
  - intros item Hin Hid. apply list_elem_of_In in Hin. simpl in Hin.
    destruct Hin as [<-|[<-|[]]]; [discriminate Hid | discriminate].
Defined.

(** X10.  The order of the checks on a product that the cart holds but
    the catalogue no longer has: [updateItem] looks the product up before
    it scans the cart and rejects with a 400 error that is not "Product
    not in cart", writing nothing; [addItem] scans the cart first and
    rejects with "Product already in cart ...". *)
Theorem unknown_product_in_cart impl cfg user productId quantity w i cart :
  findCartForUser (User.email user.2) (db w) = Some (i, cart) ->
  findById productId (db w) = None ->
  productId ∈ productIds (Cart.cartItems cart) ->
  (exists message,
     updateItem impl user productId quantity w
     = (Rejected (ApiError BAD_REQUEST message), w) /\
     ApiError BAD_REQUEST message <> ProductNotInCart) /\
  addItem impl cfg user productId quantity w = (Rejected ProductAlreadyInCart, w).
Proof.
  intros Hcart Hprod Hin. split; [|by eapply addItem_duplicate].
  destruct impl; simpl;
    unfold Services.updateProductInCart, Part001.updateProductInCart; run;
    rewrite Hcart, Hprod; eexists; (split; [reflexivity | discriminate]).
Qed.

Lemma unknown_product_in_cart_witness :
  addItem unnamed_part_001 Shop.cfg (0%nat, Shop.alice) "gadget" 1
    (Shop.world {| users := users Shop.store; carts := carts Shop.store;
                   products := [Shop.widget] |} [])
  = (Rejected ProductAlreadyInCart,
     Shop.world {| users := users Shop.store; carts := carts Shop.store;
                   products := [Shop.widget] |} []).
Proof.
  apply (unknown_product_in_cart unnamed_part_001 Shop.cfg (0%nat, Shop.alice)
           "gadget" 1
           (Shop.world {| users := users Shop.store; carts := carts Shop.store;
                          products := [Shop.widget] |} [])
           1 (Shop.cartOf Shop.alice Shop.basket)).
  - reflexivity.
  - reflexivity.
  - apply list_elem_of_In. simpl. auto.
Defined.

(** X11.  Only [addItem] creates a cart: for a user without a cart,
    [updateItem] and [removeItem] reject with a 400 [ApiError] (where
    [getCartByUser] and [checkout] reject with a 404) and the world is
    unchanged, so the user still has no cart. *)
Theorem no_cart_no_creation impl cfg user productId quantity w :
  findCartForUser (User.email user.2) (db w) = None ->
  (exists message,
     updateItem impl user productId quantity w
     = (Rejected (ApiError BAD_REQUEST message), w)) /\
  (exists message,
     removeItem impl user productId w = (Rejected (ApiError BAD_REQUEST message), w)) /\
  (exists message,
     getCart impl user w = (Rejected (ApiError NOT_FOUND message), w)) /\
  (exists message,
     checkout impl cfg user w = (Rejected (ApiError NOT_FOUND message), w)).
Proof.
  intros Hcart. split_and!.
  - by apply updateItem_no_cart.
  - by apply removeItem_no_cart.
  - destruct impl; simpl; unfold Services.getCartByUser, Part001.getCartByUser; run;
      rewrite Hcart; eauto.
  - by apply checkout_no_cart.
Qed.

Lemma no_cart_no_creation_witness :
  exists message,
    removeItem services_cart_service (1%nat, Shop.bob) "widget" (Shop.world Shop.fresh [])
    = (Rejected (ApiError BAD_REQUEST message), Shop.world Shop.fresh []).
Proof.
  apply (no_cart_no_creation services_cart_service Shop.cfg (1%nat, Shop.bob)
           "widget" 0 (Shop.world Shop.fresh [])).
  reflexivity.
Defined.

(** ** The two copies of [updateItem] *)

Lemma unique_first_is_last productId items n :
  NoDup (productIds items) ->
  firstMatch productId items n -> lastMatch productId items n.
Proof.
  intros Hnodup [(item & Hitem & Hid) _]. split; [by exists item|].
  intros m item' Hlt Hm Hid'.
  assert (n = m); [|lia].
  apply (NoDup_lookup (productIds items) n m productId); [done | |].
  - unfold productIds. change (map productIdOf items) with (productIdOf <$> items).
    by rewrite list_lookup_fmap, Hitem, <- Hid.
  - unfold productIds. change (map productIdOf items) with (productIdOf <$> items).
    by rewrite list_lookup_fmap, Hm, <- Hid'.
Qed.

(** X18.  On a cart that holds at most one item per product, the two
    copies of [updateItem] are the same function for a known product: the
    same result and the same world (the last match of one is the first
    match of the other). *)
Theorem updateItem_copies_agree user productId quantity w i cart product :
  findCartForUser (User.email user.2) (db w) = Some (i, cart) ->
  findById productId (db w) = Some product ->
  NoDup (productIds (Cart.cartItems cart)) ->
  updateItem services_cart_service user productId quantity w
  = updateItem unnamed_part_001 user productId quantity w.
Proof.
  intros Hcart Hprod Hnodup.
  destruct (decide (productId ∈ productIds (Cart.cartItems cart))) as [Hin|Habs].
  - destruct (firstMatch_exists _ _ Hin) as [n Hfirst]. simpl.
    rewrite (Services_update_last user productId quantity w i cart product n)
      by (try done; by apply unique_first_is_last).
    by rewrite (Part001_update_first user productId quantity w i cart product n).
  - by rewrite !(updateItem_absent _ user productId quantity w i cart product).
Qed.

Lemma updateItem_copies_agree_witness :
  updateItem services_cart_service (0%nat, Shop.alice) "widget" 5
    (Shop.world Shop.store [])
  = updateItem unnamed_part_001 (0%nat, Shop.alice) "widget" 5
      (Shop.world Shop.store []).
Proof.
  apply (updateItem_copies_agree (0%nat, Shop.alice) "widget" 5
           (Shop.world Shop.store []) 1 (Shop.cartOf Shop.alice Shop.basket) Shop.widget).
  - reflexivity.
  - reflexivity.
  - apply NoDup_ListNoDup. repeat constructor; simpl; intuition discriminate.
Defined.

(** ** The address gate and [hasSetNonDefaultAddress] *)

Lemma settle_not_ApiError user cart w status message w' :
  (User_save user ;;; Cart_save cart) w <> (Rejected (ApiError status message), w').
Proof.
  unfold await.
  destruct (User_save user w) as [[[]|e] w1] eqn:Hsave.
  - unfold Cart_save. destruct (decide _); [congruence|].
    unfold write. destruct (writes w1) as [|[] ?]; simpl; congruence.
  - unfold User_save, write in Hsave.
    destruct (writes w) as [|[] ?], (users (db w) !! user.1);
      simpl in Hsave; congruence.
Qed.

(** X21.  [hasSetNonDefaultAddress] resolves to [true] exactly when the
    address of the user differs from the default one of the
    configuration, and it is the gate of both checkouts: on a cart with
    items, checkout rejects with the error of the address exactly when
    [hasSetNonDefaultAddress] resolves to [false] (the first copy tests
    the address itself and ignores the answer of the method; the test is
    the same). *)
Theorem address_gate_is_hasSetNonDefaultAddress impl cfg user w i cart :
  findCartForUser (User.email user.2) (db w) = Some (i, cart) ->
  Cart.cartItems cart <> [] ->
  ((hasSetNonDefaultAddress cfg user.2 w).1 = Resolved true <->
   User.address user.2 <> default_address cfg) /\
  (checkout impl cfg user w = (Rejected (AddressNotSet impl), w) <->
   (hasSetNonDefaultAddress cfg user.2 w).1 = Resolved false).
Proof.
  intros Hcart Hitems. unfold hasSetNonDefaultAddress, resolve. cbn [fst].
  destruct (String.eqb_spec (User.address user.2) (default_address cfg)) as [Hdef|Haddr];
    cbn [negb].
  - split; [split; [discriminate | done]|].
    split; [done|]. intros _. by eapply checkout_default_address.
  - split; [done|]. split; [|discriminate].
    rewrite (checkout_validated impl cfg user w i cart) by done. cbn zeta.
    destruct (cartTotal (Cart.cartItems cart) >? User.walletMoney user.2).
    + destruct impl; discriminate.
    + intros Hno. destruct impl; by apply settle_not_ApiError in Hno.
Qed.

Lemma address_gate_is_hasSetNonDefaultAddress_witness :
  checkout services_cart_service Shop.cfg (1%nat, Shop.bob) (Shop.world Shop.store [])
    = (Rejected (AddressNotSet services_cart_service), Shop.world Shop.store []) <->
  (hasSetNonDefaultAddress Shop.cfg Shop.bob (Shop.world Shop.store [])).1 = Resolved false.
Proof.
  apply (address_gate_is_hasSetNonDefaultAddress services_cart_service Shop.cfg
           (1%nat, Shop.bob) (Shop.world Shop.store []) 0
           (Shop.cartOf Shop.bob [Shop.line Shop.widget 1; Shop.line Shop.widget 2])).
  - reflexivity.
  - discriminate.
Defined.

(** ** The two copies of [addItem] *)

(** X22.  The two copies of [addItem] differ in one thing, the
    [paymentOption] of the cart they create: the first copy passes the
    default of the configuration, the second leaves it to the schema.
    When the two defaults are the same, the copies leave the same world
    and resolve to the same cart (they differ in the message of the 500
    error only). *)
Theorem addItem_copies_agree cfg user productId quantity w :
  cartSchema_paymentOption cfg = default_payment_option cfg ->
  (addItem services_cart_service cfg user productId quantity w).2
  = (addItem unnamed_part_001 cfg user productId quantity w).2 /\
  (forall cart,
     (addItem services_cart_service cfg user productId quantity w).1 = Resolved cart <->
     (addItem unnamed_part_001 cfg user productId quantity w).1 = Resolved cart).
Proof.
  intros Hsame.
  destruct (findCartForUser (User.email user.2) (db w)) as [[i cart]|] eqn:Hcart.
  - destruct (decide (productId ∈ productIds (Cart.cartItems cart))) as [Hin|Habs].
    + by rewrite !(addItem_duplicate _ cfg user productId quantity w i cart).
    + by rewrite !(addItem_found _ cfg user productId quantity w i cart).
  - destruct (nextWriteAccepted_cases w) as [Hacc|Hrej].
    + rewrite !(addItem_created _ cfg user productId quantity w) by done. cbn zeta.
      assert (newCart services_cart_service cfg (User.email user.2)
              = newCart unnamed_part_001 cfg (User.email user.2)) as ->.
      { unfold newCart. by rewrite Hsame. }
      done.
    + destruct (addItem_not_created services_cart_service cfg user productId quantity w
                  Hcart Hrej) as [? ->].
      destruct (addItem_not_created unnamed_part_001 cfg user productId quantity w
                  Hcart Hrej) as [? ->].
      split; [done|]. intros c. split; discriminate.
Qed.

Lemma addItem_copies_agree_witness :
  (addItem services_cart_service Shop.cfg (1%nat, Shop.bob) "gadget" 2
     (Shop.world Shop.fresh [true; false])).2
  = (addItem unnamed_part_001 Shop.cfg (1%nat, Shop.bob) "gadget" 2
       (Shop.world Shop.fresh [true; false])).2.
Proof.
  apply (addItem_copies_agree Shop.cfg (1%nat, Shop.bob) "gadget" 2
           (Shop.world Shop.fresh [true; false])).
  reflexivity.
Defined.

(** ** Balances *)




(** A line of negative quantity is paid to the wallet: the balance goes
    from 30 to 50. *)
Example negative_line_credits :
  forall impl,
    let s := {| users := users Shop.store;
                carts := [Shop.cartOf Shop.alice [Shop.line Shop.widget (-2)]];
                products := products Shop.store |} in
    User.walletMoney <$>
      users (db (checkout impl Shop.cfg (0%nat, Shop.alice) (Shop.world s [])).2) !! 0%nat
    = Some 50.
Proof. intros []; reflexivity. Qed.



